(** * CLIProxyAPI: credential force-refresh and the synthetic identity cache

    A shallow embedding of
    - [internal/runtime/executor/user_id_cache.go] (both revisions of
      [cachedUserID]: scoped by API key, and scoped by provider and model),
    - [internal/api/handlers/management/auth_refresh.go] (both revisions of
      [PostForceRefreshTokens]),
    together with the parts of the [sdk/cliproxy/auth] Manager and of the
    identity generator that those functions call. *)

From Stdlib Require Import ZArith NArith Ascii String List Lia Bool.
From stdpp Require Import base option gmap strings list.

Local Open Scope string_scope.

(** ** Go's [strings] package

    A Go string is a sequence of bytes.  [HasPrefix] and [Contains] compare
    bytes.  [TrimSpace], [ToLower] and [EqualFold] read a string as UTF-8
    and go by the Unicode tables of the toolchain: they are an interface
    here, [Strings], with what is used of them.  On strings of ASCII bytes
    they are the functions of [ASCII] below (the fast paths of the Go
    implementation); [EqualFold] relates every string to itself. *)
Module GoStrings.

(** Go's [asciiSpace]: space, and tab to carriage return. *)
Definition isSpace (c : ascii) : bool :=
  let n := N_of_ascii c in
  (n =? 32)%N || ((9 <=? n)%N && (n <=? 13)%N).

(** Every byte of the string is below [utf8.RuneSelf]. *)
Fixpoint isASCII (s : string) : bool :=
  match s with
  | EmptyString => true
  | String c r => (N_of_ascii c <? 128)%N && isASCII r
  end.

(** Every byte of the string is ASCII white space. *)
Fixpoint allSpace (s : string) : bool :=
  match s with
  | EmptyString => true
  | String c r => isSpace c && allSpace r
  end.

(** The three functions on strings of ASCII bytes. *)
Module ASCII.

Fixpoint TrimLeft (s : string) : string :=
  match s with
  | EmptyString => EmptyString
  | String c r => if isSpace c then TrimLeft r else s
  end.

Fixpoint TrimRight (s : string) : string :=
  match s with
  | EmptyString => EmptyString
  | String c r =>
      match TrimRight r with
      | EmptyString => if isSpace c then EmptyString else String c EmptyString
      | r' => String c r'
      end
  end.

Definition TrimSpace (s : string) : string := TrimRight (TrimLeft s).

Definition lowerChar (c : ascii) : ascii :=
  let n := N_of_ascii c in
  if ((65 <=? n)%N && (n <=? 90)%N) then ascii_of_N (n + 32) else c.

Fixpoint ToLower (s : string) : string :=
  match s with
  | EmptyString => EmptyString
  | String c r => String (lowerChar c) (ToLower r)
  end.

Fixpoint EqualFold (s t : string) : bool :=
  match s, t with
  | EmptyString, EmptyString => true
  | String c s', String d t' =>
      bool_decide (lowerChar c = lowerChar d) && EqualFold s' t'
  | _, _ => false
  end.

End ASCII.

Class Strings := {
  TrimSpace : string → string;
  ToLower : string → string;
  EqualFold : string → string → bool;
  TrimSpace_ASCII s : isASCII s = true → TrimSpace s = ASCII.TrimSpace s;
  ToLower_ASCII s : isASCII s = true → ToLower s = ASCII.ToLower s;
  EqualFold_ASCII s t :
    isASCII s = true → isASCII t = true → EqualFold s t = ASCII.EqualFold s t;
  EqualFold_refl s : EqualFold s s = true;
}.

(** The functions of [ASCII] on every string: an implementation of the
    interface that treats the bytes from 128 on as neither space nor
    letter. *)
Definition ascii_strings : Strings.
Proof.
  refine {| TrimSpace := ASCII.TrimSpace;
            ToLower := ASCII.ToLower;
            EqualFold := ASCII.EqualFold |}; try reflexivity.
  intros s. induction s as [|c s IH]; simpl; [reflexivity|].
  rewrite IH, andb_true_r. by apply bool_decide_eq_true.
Defined.

Fixpoint HasPrefix (s prefix : string) {struct prefix} : bool :=
  match prefix with
  | EmptyString => true
  | String c prefix' =>
      match s with
      | String d s' => bool_decide (c = d) && HasPrefix s' prefix'
      | EmptyString => false
      end
  end.

Fixpoint Contains (s substr : string) : bool :=
  HasPrefix s substr ||
  match s with
  | EmptyString => false
  | String _ s' => Contains s' substr
  end.

End GoStrings.

(** ** Go's [time.Time], as far as the code uses it

    An instant is the number of nanoseconds elapsed since the zero value
    [time.Time{}]; only comparison and addition of a duration are used. *)
Module GoTime.

Definition Time := Z.
Definition Duration := Z.

Definition zero : Time := 0%Z.
Definition Minute : Duration := (60 * 1000000000)%Z.
Definition Hour : Duration := (60 * Minute)%Z.

Definition Before (t u : Time) : bool := (t <? u)%Z.
Definition After (t u : Time) : bool := (u <? t)%Z.
Definition Add (t : Time) (d : Duration) : Time := (t + d)%Z.
Definition IsZero (t : Time) : bool := (t =? 0)%Z.

End GoTime.

(** ** The synthetic identity string

    [cachedUserID] calls [generateFakeUserID] and [isValidUserID], which
    live in another file of the package.  The format is the one the
    end-to-end test spells out:
    [user_{64-hex}_account__session_{uuid}]. *)
Module Identity.

Definition isLowerHex (c : ascii) : bool :=
  let n := N_of_ascii c in
  ((48 <=? n)%N && (n <=? 57)%N) || ((97 <=? n)%N && (n <=? 102)%N).

Definition hexChars : list ascii :=
  list_ascii_of_string "0123456789abcdef".

Definition hexDigit (n : N) : ascii :=
  nth (N.to_nat (n mod 16)) hexChars "0"%char.

(** [hex.EncodeToString]: two lowercase digits per byte, high nibble first. *)
Fixpoint hexEncode (bs : list N) : string :=
  match bs with
  | [] => EmptyString
  | b :: r => String (hexDigit (b / 16)) (String (hexDigit b) (hexEncode r))
  end.

(** The process-wide random source, as the tape of bytes one call reads. *)
Definition Entropy := nat → N.

Definition randBytes (rnd : Entropy) (off len : nat) : list N :=
  map (λ i, (rnd i mod 256)%N) (seq off len).

Definition userPrefix : string := "user_".
Definition sessionSeparator : string := "_account__session_".

(** Modelled from the spec: the canonical 8-4-4-4-12 rendering of sixteen
    bytes, the "UUID-formatted session segment" ([uuid.String] belongs to a
    library). *)
Definition uuidString (bs : list N) : string :=
  hexEncode (take 4 bs) +:+ "-" +:+
  hexEncode (take 2 (drop 4 bs)) +:+ "-" +:+
  hexEncode (take 2 (drop 6 bs)) +:+ "-" +:+
  hexEncode (take 2 (drop 8 bs)) +:+ "-" +:+
  hexEncode (take 6 (drop 10 bs)).

(** Modelled from the spec: [generateFakeUserID] is defined in another file
    of the package, which is not at hand.  "Fixed
    textual prefix + 64-character lowercase-hex digest + fixed separator +
    UUID-formatted session segment": thirty-two random bytes in hex, then
    sixteen more as a UUID. *)
Definition generateFakeUserID (rnd : Entropy) : string :=
  userPrefix +:+ hexEncode (randBytes rnd 0 32) +:+
  sessionSeparator +:+ uuidString (randBytes rnd 32 16).

(** A matcher for the anchored pattern
    [^user_[a-f0-9]{64}_account__session_[a-f0-9]{8}-[a-f0-9]{4}-[a-f0-9]{4}-[a-f0-9]{4}-[a-f0-9]{12}$],
    one combinator per piece of the pattern; each returns the rest of the
    input. *)
Fixpoint expectLit (lit s : string) : option string :=
  match lit with
  | EmptyString => Some s
  | String c lit' =>
      match s with
      | String d s' => if decide (c = d) then expectLit lit' s' else None
      | EmptyString => None
      end
  end.

Fixpoint expectHex (n : nat) (s : string) : option string :=
  match n with
  | O => Some s
  | S n' =>
      match s with
      | String c s' => if isLowerHex c then expectHex n' s' else None
      | EmptyString => None
      end
  end.

Inductive Piece :=
  | Lit (lit : string)
  | Hex (n : nat).

Definition matchPiece (p : Piece) (s : string) : option string :=
  match p with
  | Lit lit => expectLit lit s
  | Hex n => expectHex n s
  end.

Fixpoint matchPieces (ps : list Piece) (s : string) : option string :=
  match ps with
  | [] => Some s
  | p :: ps' =>
      match matchPiece p s with
      | Some s' => matchPieces ps' s'
      | None => None
      end
  end.

Definition userIDPattern : list Piece :=
  [ Lit userPrefix; Hex 64; Lit sessionSeparator;
    Hex 8; Lit "-"; Hex 4; Lit "-"; Hex 4; Lit "-"; Hex 4; Lit "-"; Hex 12 ].

(** Modelled from the spec: [isValidUserID] is defined in another file of
    the package, which is not at hand.  "Validation
    must reject anything non-conforming": the whole string has to match. *)
Definition isValidUserID (s : string) : bool :=
  match matchPieces userIDPattern s with
  | Some EmptyString => true
  | _ => false
  end.

(** The pattern, stated declaratively. *)
Inductive LowerHex : nat → string → Prop :=
  | LowerHex_nil : LowerHex 0 EmptyString
  | LowerHex_cons n c s :
      isLowerHex c = true → LowerHex n s → LowerHex (S n) (String c s).

Definition Conforming (s : string) : Prop :=
  ∃ digest u1 u2 u3 u4 u5 : string,
    LowerHex 64 digest ∧
    LowerHex 8 u1 ∧ LowerHex 4 u2 ∧ LowerHex 4 u3 ∧ LowerHex 4 u4 ∧
    LowerHex 12 u5 ∧
    s = "user_" +:+ digest +:+ "_account__session_" +:+
        u1 +:+ "-" +:+ u2 +:+ "-" +:+ u3 +:+ "-" +:+ u4 +:+ "-" +:+ u5.

End Identity.

(** ** The identity cache ([internal/runtime/executor/user_id_cache.go])

    The package-level map, the [sync.Once] guarding the start of the
    cleanup goroutine, and the purge are the same in both revisions of the
    file; the revisions differ in [cachedUserID]. *)
Module UserIDCache.
Import GoTime Identity.

Record userIDCacheEntry := {
  value : string;
  expire : Time;
}.

(** The zero value Go yields when a key is absent from the map. *)
Definition zeroEntry : userIDCacheEntry := {| value := ""; expire := zero |}.

Record State := {
  userIDCache : gmap string userIDCacheEntry;
  cleanupStarted : bool;   (* userIDCacheCleanupOnce has fired *)
}.

Definition empty : State :=
  {| userIDCache := ∅; cleanupStarted := false |}.

Definition userIDTTL : Duration := Hour.
Definition userIDCacheCleanupPeriod : Duration := (15 * Minute)%Z.

Definition expired (now : Time) (e : userIDCacheEntry) : bool :=
  Before (expire e) now.

(** One run of the ticker's body: drop every entry that expired before
    [now]. *)
Definition purgeExpiredUserIDs (now : Time) (st : State) : State :=
  {| userIDCache := filter (λ kv, expired now kv.2 = false) (userIDCache st);
     cleanupStarted := cleanupStarted st |}.

(** Revision scoped by the client API key. *)
Module ByAPIKey.

Definition cachedUserID (st : State) (now : Time) (rnd : Entropy)
    (apiKey : string) : State * string :=
  if decide (apiKey = "") then (st, generateFakeUserID rnd)
  else
    let entry := default zeroEntry (userIDCache st !! apiKey) in
    let v :=
      if bool_decide (value entry = "") || Before (expire entry) now
         || negb (isValidUserID (value entry))
      then generateFakeUserID rnd
      else value entry in
    let entry' := {| value := v; expire := Add now userIDTTL |} in
    ({| userIDCache := <[apiKey := entry']> (userIDCache st);
        cleanupStarted := true |}, v).

End ByAPIKey.

(** Revision scoped by the (provider, model) pair. *)
Module ByProviderModel.

Definition cacheKey (provider model : string) : string :=
  provider +:+ "|" +:+ model.

Definition cachedUserID (st : State) (now : Time) (rnd : Entropy)
    (provider model : string) : State * string :=
  if decide (provider = "" ∨ model = "") then (st, generateFakeUserID rnd)
  else
    let key := cacheKey provider model in
    let started := {| userIDCache := userIDCache st; cleanupStarted := true |} in
    let mint :=
      let newID := generateFakeUserID rnd in
      ({| userIDCache :=
            <[key := {| value := newID; expire := Add now userIDTTL |}]>
              (userIDCache st);
          cleanupStarted := true |}, newID) in
    match userIDCache st !! key with
    | Some entry =>
        if After (expire entry) now && negb (bool_decide (value entry = ""))
           && isValidUserID (value entry)
        then (started, value entry)
        else mint
    | None => mint
    end.

End ByProviderModel.

End UserIDCache.

(** ** Credential records and the Manager ([sdk/cliproxy/auth])

    The handler imports this package as [coreauth].  Its struct and its
    Manager are declared outside the files at hand. *)
Module coreauth.
Import GoTime.

Inductive MetaValue :=
  | MBool (b : bool)
  | MString (s : string)
  | MNumber (n : Z).

(** Modelled from the spec: the [Auth] struct is declared in a file that is
    not at hand.
    "Credential record: unique ID; Provider; Metadata (opaque key-value
    bag); Runtime (transient in-memory handle); LastRefreshedAt;
    NextRefreshAfter; LastError; CreatedAt; UpdatedAt."  [Runtime] and
    [LastError] can be nil. *)
Record Auth := {
  ID : string;
  Provider : string;
  Metadata : gmap string MetaValue;
  Runtime : option nat;
  LastRefreshedAt : Time;
  NextRefreshAfter : Time;
  LastError : option string;
  CreatedAt : Time;
  UpdatedAt : Time;
}.

(** [Clone] is a deep copy.  Records are values here, so a copy is the
    record itself; what it buys in Go (the callee cannot reach the stored
    record through the pointer it is handed) holds of every value. *)
Definition Clone (a : Auth) : Auth := a.

Definition setID (v : string) (a : Auth) : Auth :=
  {| ID := v; Provider := Provider a; Metadata := Metadata a;
     Runtime := Runtime a; LastRefreshedAt := LastRefreshedAt a;
     NextRefreshAfter := NextRefreshAfter a; LastError := LastError a;
     CreatedAt := CreatedAt a; UpdatedAt := UpdatedAt a |}.

Definition setProvider (v : string) (a : Auth) : Auth :=
  {| ID := ID a; Provider := v; Metadata := Metadata a;
     Runtime := Runtime a; LastRefreshedAt := LastRefreshedAt a;
     NextRefreshAfter := NextRefreshAfter a; LastError := LastError a;
     CreatedAt := CreatedAt a; UpdatedAt := UpdatedAt a |}.

Definition setMetadata (v : gmap string MetaValue) (a : Auth) : Auth :=
  {| ID := ID a; Provider := Provider a; Metadata := v;
     Runtime := Runtime a; LastRefreshedAt := LastRefreshedAt a;
     NextRefreshAfter := NextRefreshAfter a; LastError := LastError a;
     CreatedAt := CreatedAt a; UpdatedAt := UpdatedAt a |}.

Definition setRuntime (v : option nat) (a : Auth) : Auth :=
  {| ID := ID a; Provider := Provider a; Metadata := Metadata a;
     Runtime := v; LastRefreshedAt := LastRefreshedAt a;
     NextRefreshAfter := NextRefreshAfter a; LastError := LastError a;
     CreatedAt := CreatedAt a; UpdatedAt := UpdatedAt a |}.

Definition setLastRefreshedAt (v : Time) (a : Auth) : Auth :=
  {| ID := ID a; Provider := Provider a; Metadata := Metadata a;
     Runtime := Runtime a; LastRefreshedAt := v;
     NextRefreshAfter := NextRefreshAfter a; LastError := LastError a;
     CreatedAt := CreatedAt a; UpdatedAt := UpdatedAt a |}.

Definition setNextRefreshAfter (v : Time) (a : Auth) : Auth :=
  {| ID := ID a; Provider := Provider a; Metadata := Metadata a;
     Runtime := Runtime a; LastRefreshedAt := LastRefreshedAt a;
     NextRefreshAfter := v; LastError := LastError a;
     CreatedAt := CreatedAt a; UpdatedAt := UpdatedAt a |}.

Definition setLastError (v : option string) (a : Auth) : Auth :=
  {| ID := ID a; Provider := Provider a; Metadata := Metadata a;
     Runtime := Runtime a; LastRefreshedAt := LastRefreshedAt a;
     NextRefreshAfter := NextRefreshAfter a; LastError := v;
     CreatedAt := CreatedAt a; UpdatedAt := UpdatedAt a |}.

Definition setUpdatedAt (v : Time) (a : Auth) : Auth :=
  {| ID := ID a; Provider := Provider a; Metadata := Metadata a;
     Runtime := Runtime a; LastRefreshedAt := LastRefreshedAt a;
     NextRefreshAfter := NextRefreshAfter a; LastError := LastError a;
     CreatedAt := CreatedAt a; UpdatedAt := v |}.

(** A Go [error] is nil or carries the text its [Error()] returns. *)
Definition error := option string.

(** The part of the provider executor interface the handler calls.  One
    call of [Refresh] yields a (possibly nil) record and an error. *)
Record ProviderExecutor := {
  Identifier : string;
  Refresh : Auth → option Auth * error;
}.

(** The Manager methods the handler calls.  [GetByID] and [Executor]
    answer [None] where Go answers [ok = false] or a nil pointer; [Update]
    can change the manager. *)
Class Manager (M : Type) := {
  GetByID : M → string → option Auth;
  Executor : M → string → option ProviderExecutor;
  Update : M → Auth → M * (option Auth * error);
}.

End coreauth.

(** ** The force-refresh handler
    ([internal/api/handlers/management/auth_refresh.go]) *)
Module management.
Import GoStrings GoTime coreauth.

Definition StatusOK : Z := 200.
Definition StatusBadRequest : Z := 400.
Definition StatusNotFound : Z := 404.
Definition StatusInternalServerError : Z := 500.

Record forceRefreshRequest := {
  req_AuthID : string;      (* json:"auth_id" *)
  req_Provider : string;    (* json:"provider" *)
}.

Definition zeroRequest : forceRefreshRequest :=
  {| req_AuthID := ""; req_Provider := "" |}.

(** What [c.ShouldBindJSON(&req)] makes of the request body: [io.EOF] on an
    empty body (the request stays zero), another error, or the decoded
    request. *)
Inductive Body :=
  | BodyEOF
  | BodyMalformed
  | BodyJSON (req : forceRefreshRequest).

(** The request after binding; malformed bodies never get this far. *)
Definition requestOf (body : Body) : forceRefreshRequest :=
  match body with
  | BodyJSON req => req
  | BodyEOF | BodyMalformed => zeroRequest
  end.

(** [h == nil] and [h.authManager == nil] are answered alike, so a nil
    handler is a handler without manager. *)
Record Handler (M : Type) := {
  authManager : option M;
}.
Arguments authManager {M} _.

Definition withManager {M} (m : M) : Handler M := {| authManager := Some m |}.

(** The revision that answers with one flat [forceRefreshResponse] and
    checks what the executor hands back. *)
Module Flat.

Record forceRefreshResponse := {
  AuthID : string;
  Provider : string;
  Refreshed : bool;
  Error : string;
  Auth : option coreauth.Auth;
}.

Definition failure (authID provider msg : string) : forceRefreshResponse :=
  {| AuthID := authID; Provider := provider; Refreshed := false;
     Error := msg; Auth := None |}.

Section handler.
Context `{!Strings} {M : Type} `{!Manager M}.

Definition PostForceRefreshTokens (h : Handler M) (now : Time) (body : Body)
    : Handler M * (Z * forceRefreshResponse) :=
  match authManager h with
  | None =>
      (h, (StatusInternalServerError, failure "" "" "auth manager unavailable"))
  | Some m =>
  match body with
  | BodyMalformed => (h, (StatusBadRequest, failure "" "" "invalid body"))
  | _ =>
  let req := requestOf body in
  let providerFilter := ToLower (TrimSpace (req_Provider req)) in
  let authID := TrimSpace (req_AuthID req) in
  if decide (authID = "") then
    (h, (StatusBadRequest, failure authID providerFilter "auth_id is required"))
  else
  match GetByID m authID with
  | None =>
      (h, (StatusNotFound, failure authID providerFilter "auth not found"))
  | Some auth =>
  let fail := failure (coreauth.ID auth) (coreauth.Provider auth) in
  if negb (bool_decide (providerFilter = ""))
     && negb (EqualFold providerFilter (coreauth.Provider auth)) then
    (h, (StatusBadRequest, fail "provider mismatch"))
  else
  match Executor m (TrimSpace (coreauth.Provider auth)) with
  | None => (h, (StatusBadRequest, fail "executor not registered"))
  | Some exec =>
  match Refresh exec (Clone auth) with
  | (_, Some errRefresh) => (h, (StatusBadRequest, fail errRefresh))
  | (refreshed, None) =>
  let updated := default (Clone auth) refreshed in
  let updated :=
    if decide (coreauth.ID updated = "")
    then setID (coreauth.ID auth) updated else updated in
  if negb (bool_decide (coreauth.ID updated = coreauth.ID auth)) then
    (h, (StatusInternalServerError,
         fail "executor returned mismatched auth id"))
  else
  let updated :=
    if decide (coreauth.Provider updated = "")
    then setProvider (coreauth.Provider auth) updated else updated in
  if negb (EqualFold (coreauth.Provider updated) (coreauth.Provider auth)) then
    (h, (StatusInternalServerError,
         fail "executor returned mismatched provider"))
  else
  let updated :=
    match Runtime updated with
    | None => setRuntime (Runtime auth) updated
    | Some _ => updated
    end in
  let updated := setLastRefreshedAt now updated in
  let updated := setNextRefreshAfter zero updated in
  let updated := setLastError None updated in
  let updated := setUpdatedAt now updated in
  match Update m updated with
  | (m', (_, Some errUpdate)) =>
      (withManager m', (StatusInternalServerError, fail errUpdate))
  | (m', (None, None)) =>
      (withManager m',
       (StatusInternalServerError, fail "failed to persist refreshed auth"))
  | (m', (Some persisted, None)) =>
      (withManager m',
       (StatusOK,
        {| AuthID := coreauth.ID persisted;
           Provider := coreauth.Provider persisted;
           Refreshed := true;
           Error := "";
           Auth := Some (Clone persisted) |}))
  end
  end
  end
  end
  end
  end.

(** The stages of a call, for stating what the handler does.

    [reachesRefresh m body auth exec]: the body binds, the trimmed
    identifier is not empty and names [auth], the provider filter is empty
    or matches, and [exec] is the executor registered for the record's
    provider; so the handler calls [exec.Refresh] on a clone of [auth]. *)
Definition reachesRefresh (m : M) (body : Body) (auth : coreauth.Auth)
    (exec : ProviderExecutor) : Prop :=
  let req := requestOf body in
  let providerFilter := ToLower (TrimSpace (req_Provider req)) in
  let authID := TrimSpace (req_AuthID req) in
  body ≠ BodyMalformed ∧
  authID ≠ "" ∧
  GetByID m authID = Some auth ∧
  (providerFilter = "" ∨ EqualFold providerFilter (coreauth.Provider auth) = true) ∧
  Executor m (TrimSpace (coreauth.Provider auth)) = Some exec.

(** What the executor handed back, a nil record standing for a clone of
    the stored one, with an empty identifier or provider filled in from the
    stored record. *)
Definition returnedRecord (auth : coreauth.Auth) (refreshed : option coreauth.Auth)
    : coreauth.Auth :=
  let updated := default (Clone auth) refreshed in
  let updated :=
    if decide (coreauth.ID updated = "")
    then setID (coreauth.ID auth) updated else updated in
  if decide (coreauth.Provider updated = "")
  then setProvider (coreauth.Provider auth) updated else updated.

(** The record handed to [Update] once the checks have passed. *)
Definition recordToPersist (now : Time) (auth : coreauth.Auth)
    (refreshed : option coreauth.Auth) : coreauth.Auth :=
  let updated := returnedRecord auth refreshed in
  let updated :=
    match Runtime updated with
    | None => setRuntime (Runtime auth) updated
    | Some _ => updated
    end in
  setUpdatedAt now
    (setLastError None (setNextRefreshAfter zero (setLastRefreshedAt now updated))).

(** What is left of the handler once [Refresh] has returned without
    error, in terms of the two records above. *)
Definition afterRefresh (m : M) (now : Time) (auth : coreauth.Auth)
    (refreshed : option coreauth.Auth)
    : Handler M * (Z * forceRefreshResponse) :=
  let fail := failure (coreauth.ID auth) (coreauth.Provider auth) in
  let returned := returnedRecord auth refreshed in
  if decide (coreauth.ID returned ≠ coreauth.ID auth) then
    (withManager m,
     (StatusInternalServerError, fail "executor returned mismatched auth id"))
  else if negb (EqualFold (coreauth.Provider returned) (coreauth.Provider auth)) then
    (withManager m,
     (StatusInternalServerError, fail "executor returned mismatched provider"))
  else
    match Update m (recordToPersist now auth refreshed) with
    | (m', (_, Some errUpdate)) =>
        (withManager m', (StatusInternalServerError, fail errUpdate))
    | (m', (None, None)) =>
        (withManager m',
         (StatusInternalServerError, fail "failed to persist refreshed auth"))
    | (m', (Some persisted, None)) =>
        (withManager m',
         (StatusOK,
          {| AuthID := coreauth.ID persisted;
             Provider := coreauth.Provider persisted;
             Refreshed := true;
             Error := "";
             Auth := Some persisted |}))
    end.

End handler.
End Flat.

(** The revision that answers [{"error": ...}] for the early failures and
    [{"results": [...]}] afterwards, and hands the executor's record to
    [Update] as it comes. *)
Module Listed.

Record forceRefreshResult := {
  ID : string;
  Provider : string;
  Refreshed : bool;
  Error : string;
  Auth : option coreauth.Auth;
}.

(** The two shapes of [gin.H] the handler serialises. *)
Inductive Payload :=
  | ErrorOnly (msg : string)                    (* gin.H{"error": msg} *)
  | Results (rs : list forceRefreshResult).     (* gin.H{"results": rs} *)

Definition failure (id provider msg : string) : forceRefreshResult :=
  {| ID := id; Provider := provider; Refreshed := false;
     Error := msg; Auth := None |}.

(** The [refreshed] members of the body: none in [{"error": ...}], one per
    result otherwise. *)
Definition refreshedFlags (p : Payload) : list bool :=
  match p with
  | ErrorOnly _ => []
  | Results rs => map Refreshed rs
  end.

Section handler.
Context `{!Strings} {M : Type} `{!Manager M}.

Definition PostForceRefreshTokens (h : Handler M) (now : Time) (body : Body)
    : Handler M * (Z * Payload) :=
  match authManager h with
  | None => (h, (StatusInternalServerError, ErrorOnly "auth manager unavailable"))
  | Some m =>
  match body with
  | BodyMalformed => (h, (StatusBadRequest, ErrorOnly "invalid body"))
  | _ =>
  let req := requestOf body in
  let providerFilter := ToLower (TrimSpace (req_Provider req)) in
  let authID := TrimSpace (req_AuthID req) in
  if decide (authID = "") then
    (h, (StatusBadRequest, ErrorOnly "auth_id is required"))
  else
  match GetByID m authID with
  | None => (h, (StatusNotFound, ErrorOnly "auth not found"))
  | Some auth =>
  if negb (bool_decide (providerFilter = ""))
     && negb (EqualFold providerFilter (coreauth.Provider auth)) then
    (h, (StatusBadRequest, ErrorOnly "provider mismatch"))
  else
  let fail := failure (coreauth.ID auth) (coreauth.Provider auth) in
  match Executor m (TrimSpace (coreauth.Provider auth)) with
  | None =>
      (h, (StatusBadRequest, Results [fail "executor not registered"]))
  | Some exec =>
  match Refresh exec (Clone auth) with
  | (_, Some errRefresh) => (h, (StatusBadRequest, Results [fail errRefresh]))
  | (refreshed, None) =>
  let updated := default (Clone auth) refreshed in
  let updated :=
    match Runtime updated with
    | None => setRuntime (Runtime auth) updated
    | Some _ => updated
    end in
  let updated := setLastRefreshedAt now updated in
  let updated := setNextRefreshAfter zero updated in
  let updated := setLastError None updated in
  let updated := setUpdatedAt now updated in
  match Update m updated with
  | (m', (_, Some errUpdate)) =>
      (withManager m', (StatusBadRequest, Results [fail errUpdate]))
  | (m', (_, None)) =>
      (withManager m',
       (StatusOK,
        Results [ {| ID := coreauth.ID auth;
                     Provider := coreauth.Provider auth;
                     Refreshed := true;
                     Error := "";
                     Auth := Some (Clone updated) |} ]))
  end
  end
  end
  end
  end
  end.

(** The record this revision hands to [Update]: what the executor returned
    (a nil record standing for a clone of the stored one), untouched but for
    the runtime handle and the four stamps. *)
Definition recordToUpdate (now : Time) (auth : coreauth.Auth)
    (refreshed : option coreauth.Auth) : coreauth.Auth :=
  let updated := default (Clone auth) refreshed in
  let updated :=
    match Runtime updated with
    | None => setRuntime (Runtime auth) updated
    | Some _ => updated
    end in
  setUpdatedAt now
    (setLastError None (setNextRefreshAfter zero (setLastRefreshedAt now updated))).

End handler.
End Listed.

End management.

(** ** The credential registry behind the Manager *)
Module Registry.
Import GoTime coreauth.

(** Modelled from the spec: the Manager of [sdk/cliproxy/auth] is defined in
    files that are not at hand.  "Authoritative in-memory table of
    credential records;
    create/lookup/update/remove, indexed by provider", with the executor
    set of the composition root.  [order] keeps the identifiers in
    registration order. *)
Record Registry := {
  auths : gmap string Auth;
  order : list string;
  executors : gmap string ProviderExecutor;
}.

Definition NewManager : Registry :=
  {| auths := ∅; order := []; executors := ∅ |}.

(** Modelled from the spec: "Registering a second Executor under the same
    Identifier overwrites the first." *)
Definition RegisterExecutor (e : ProviderExecutor) (r : Registry) : Registry :=
  {| auths := auths r; order := order r;
     executors := <[Identifier e := e]> (executors r) |}.

(** Modelled from the spec: "Register(record) → stored record or error
    (fails on duplicate ID or empty ID)." *)
Definition Register (a : Auth) (r : Registry) : Registry * (option Auth * error) :=
  if decide (ID a = "") then (r, (None, Some "auth id is required"))
  else match auths r !! ID a with
       | Some _ => (r, (None, Some "auth already registered"))
       | None =>
           ({| auths := <[ID a := a]> (auths r);
               order := order r ++ [ID a];
               executors := executors r |}, (Some a, None))
       end.

(** Modelled from the spec: "GetByID(id) → (record, found)." *)
Definition getByID (r : Registry) (id : string) : option Auth :=
  auths r !! id.

(** Modelled from the spec: "Executor(provider) → (Executor, found)";
    "selects an Executor strictly by the record's Provider string, no
    fallback." *)
Definition executorFor (r : Registry) (provider : string)
    : option ProviderExecutor :=
  executors r !! provider.

(** Modelled from the spec: "ListByProvider(provider) → sequence in
    registration order." *)
Definition ListByProvider (r : Registry) (provider : string) : list Auth :=
  filter (λ a, Provider a = provider)
         (omap (λ id, auths r !! id) (order r)).

(** Modelled from the spec: "Update(record) → persisted record or error
    (fails if the record no longer exists or Provider changed)"; the caller
    supplies a full replacement, which takes the place of the stored
    record. *)
Definition update (r : Registry) (a : Auth) : Registry * (option Auth * error) :=
  match auths r !! ID a with
  | None => (r, (None, Some "auth not found"))
  | Some old =>
      if decide (Provider old = Provider a) then
        ({| auths := <[ID a := a]> (auths r);
            order := order r;
            executors := executors r |}, (Some a, None))
      else (r, (None, Some "auth provider changed"))
  end.

(** Modelled from the spec: "Remove(id)." *)
Definition Remove (id : string) (r : Registry) : Registry :=
  {| auths := delete id (auths r);
     order := filter (λ k, k ≠ id) (order r);
     executors := executors r |}.

#[export] Instance registry_manager : Manager Registry :=
  {| GetByID := getByID; Executor := executorFor; Update := update |}.

End Registry.

(** ** The executor stubs of the handler's tests *)
Module Stubs.
Import GoTime coreauth.

(** [refreshOnlyExecutor]: marks the clone as refreshed; [stamp] is the
    formatted time of the call.  The call counter of the stub is not
    modelled. *)
Definition refreshOnlyExecutor (provider stamp : string) : ProviderExecutor :=
  {| Identifier := provider;
     Refresh := λ auth,
       let updated := Clone auth in
       (Some (setMetadata
                (<["refreshed_at" := MString stamp]>
                   (<["refreshed" := MBool true]> (Metadata updated)))
                updated), None) |}.

(** [failingRefreshExecutor]: [return nil, e.err]. *)
Definition failingRefreshExecutor (provider : string) (err : error)
    : ProviderExecutor :=
  {| Identifier := provider; Refresh := λ _, (None, err) |}.

(** [mismatchedRefreshExecutor]: overrides the identifier and the provider
    of the clone where an override is set. *)
Definition mismatchedRefreshExecutor (provider overrideID overrideProvider : string)
    : ProviderExecutor :=
  {| Identifier := provider;
     Refresh := λ auth,
       let updated := Clone auth in
       let updated :=
         if decide (overrideID = "") then updated
         else setID overrideID updated in
       let updated :=
         if decide (overrideProvider = "") then updated
         else setProvider overrideProvider updated in
       (Some updated, None) |}.

(** The record the tests register. *)
Definition baseAuth : Auth :=
  {| ID := "codex-auth"; Provider := "codex";
     Metadata := {[ "access_token" := MString "old" ]};
     Runtime := None; LastRefreshedAt := zero; NextRefreshAfter := zero;
     LastError := None; CreatedAt := zero; UpdatedAt := zero |}.

(** Some instant of a call, and the request body of the tests. *)
Definition someTime : Time := 1761868800000000000%Z.

Definition forceCodex : management.Body :=
  management.BodyJSON
    {| management.req_AuthID := "codex-auth"; management.req_Provider := "" |}.

(** The executors of [TestPostForceRefreshTokens] and of the cases of
    [TestPostForceRefreshTokens_Errors], and two more in their style: one
    that answers [nil, nil], one that changes the letter case of the
    provider. *)
Definition refreshOnly : ProviderExecutor :=
  refreshOnlyExecutor "codex" "2025-10-31T00:00:00Z".
Definition refreshFailure : ProviderExecutor :=
  failingRefreshExecutor "codex" (Some "refresh failed").
Definition idMismatch : ProviderExecutor :=
  mismatchedRefreshExecutor "codex" "other-id" "".
Definition providerMismatch : ProviderExecutor :=
  mismatchedRefreshExecutor "codex" "" "other".
Definition nilRefresh : ProviderExecutor :=
  failingRefreshExecutor "codex" None.
Definition caseMismatch : ProviderExecutor :=
  mismatchedRefreshExecutor "codex" "" "CODEX".

Definition managerWith (e : option ProviderExecutor) : Registry.Registry :=
  let m := (Registry.Register baseAuth Registry.NewManager).1 in
  match e with
  | Some e => Registry.RegisterExecutor e m
  | None => m
  end.

(** The same record as a scheduler leaves it after a failed refresh: an
    error, a retry instant, a runtime handle. *)
Definition staleAuth : Auth :=
  {| ID := "codex-auth"; Provider := "codex";
     Metadata := {[ "access_token" := MString "old" ]};
     Runtime := Some 7;
     LastRefreshedAt := (someTime - 2 * Hour)%Z;
     NextRefreshAfter := (someTime + Hour)%Z;
     LastError := Some "refresh failed: token expired";
     CreatedAt := (someTime - 48 * Hour)%Z;
     UpdatedAt := (someTime - Hour)%Z |}.

(** A second record of the same provider. *)
Definition otherAuth : Auth :=
  {| ID := "other-id"; Provider := "codex";
     Metadata := {[ "access_token" := MString "other" ]};
     Runtime := None; LastRefreshedAt := zero; NextRefreshAfter := zero;
     LastError := None; CreatedAt := zero; UpdatedAt := zero |}.

(** A manager with the given records registered in turn, and at most one
    executor. *)
Definition managerOf (records : list Auth) (e : option ProviderExecutor)
    : Registry.Registry :=
  let m := foldl (λ r a, (Registry.Register a r).1) Registry.NewManager records in
  match e with
  | Some e => Registry.RegisterExecutor e m
  | None => m
  end.

End Stubs.

(** ** The admission gate of the refresh scheduler

    [checkRefreshes] and the gate are defined in a file that is not at hand;
    the test
    [TestCheckRefreshesLimitsConcurrency] and its counting executor are. *)
Module AdmissionGate.

(** How a [Refresh] call ends. *)
Inductive Outcome :=
  | Succeeded
  | Failed (msg : string)
  | Cancelled.

(** Where one unit of work stands. *)
Inductive Phase :=
  | Waiting                    (* dispatched, blocked on the gate *)
  | Granted                    (* holds a slot, has not called Refresh yet *)
  | Refreshing                 (* inside Executor.Refresh *)
  | Returned (o : Outcome)     (* Refresh is over, the slot is still held *)
  | Finished (o : Outcome).    (* the slot is released *)

(** A due record, as far as the gate could tell them apart. *)
Record Due := {
  due_id : string;
  due_provider : string;
}.

Record State := {
  held : nat;               (* slots of the gate that are taken *)
  phases : list Phase;      (* one per due record, in dispatch order *)
  current : nat;            (* refreshLimiterExecutor.current *)
  max : nat;                (* refreshLimiterExecutor.max *)
}.

Inductive Event :=
  | Acquire (i : nat)
  | Enter (i : nat)
  | Leave (i : nat) (o : Outcome)
  | Release (i : nat).

Definition holdsSlot (p : Phase) : bool :=
  match p with
  | Granted | Refreshing | Returned _ => true
  | Waiting | Finished _ => false
  end.

Definition inRefresh (p : Phase) : bool :=
  match p with Refreshing => true | _ => false end.

Definition isFinished (p : Phase) : bool :=
  match p with Finished _ => true | _ => false end.

Fixpoint countPhase (f : Phase → bool) (l : list Phase) : nat :=
  match l with
  | [] => 0
  | p :: l' => (if f p then 1 else 0) + countPhase f l'
  end.

Definition weight (b : bool) : nat := if b then 1 else 0.

(** Modelled from the spec: "Dispatch each due record's refresh as an
    independent concurrent unit of work": every due record starts blocked
    on the gate, whatever its provider. *)
Definition dispatch (due : list Due) : State :=
  {| held := 0; phases := map (λ _, Waiting) due; current := 0; max := 0 |}.

Section gate.
(** [refreshMaxConcurrency], a constant of the package whose declaration is
    not at hand. *)
Variable refreshMaxConcurrency : nat.

(** Modelled from the spec: "a unit acquires one of N slots before calling
    Refresh and releases it unconditionally afterward — including on error
    or cancellation — so the (N+1)th unit blocks until a slot frees."  The
    bookkeeping of [Enter] and [Leave] is [refreshLimiterExecutor.Refresh]:
    [current++], [max] raised to [current], and [current--] in the deferred
    function.  One event is one atomic step of one unit; the units
    interleave freely. *)
Definition step (s : State) (e : Event) : option State :=
  match e with
  | Acquire i =>
      match phases s !! i with
      | Some Waiting =>
          if decide (held s < refreshMaxConcurrency) then
            Some {| held := S (held s); phases := <[i := Granted]> (phases s);
                    current := current s; max := max s |}
          else None
      | _ => None
      end
  | Enter i =>
      match phases s !! i with
      | Some Granted =>
          let c := S (current s) in
          Some {| held := held s; phases := <[i := Refreshing]> (phases s);
                  current := c;
                  max := if decide (max s < c) then c else max s |}
      | _ => None
      end
  | Leave i o =>
      match phases s !! i with
      | Some Refreshing =>
          Some {| held := held s; phases := <[i := Returned o]> (phases s);
                  current := current s - 1; max := max s |}
      | _ => None
      end
  | Release i =>
      match phases s !! i with
      | Some (Returned o) =>
          Some {| held := held s - 1; phases := <[i := Finished o]> (phases s);
                  current := current s; max := max s |}
      | _ => None
      end
  end.

Fixpoint run (s : State) (es : list Event) : option State :=
  match es with
  | [] => Some s
  | e :: es' =>
      match step s e with
      | Some s' => run s' es'
      | None => None
      end
  end.

(** The states of a tick: those some interleaving reaches. *)
Definition reachable (due : list Due) (s : State) : Prop :=
  ∃ es, run (dispatch due) es = Some s.

(** What the gate keeps true: the counter of the gate is the number of
    units holding a slot and never exceeds the ceiling; the counters of the
    counting executor are the number of units inside [Refresh] and the
    largest such number so far. *)
Definition gateInvariant (s : State) : Prop :=
  held s = countPhase holdsSlot (phases s) ∧
  (held s ≤ refreshMaxConcurrency)%nat ∧
  current s = countPhase inRefresh (phases s) ∧
  (max s ≤ refreshMaxConcurrency)%nat.

End gate.
End AdmissionGate.

(** ** Sequences of cache operations

    What reaches the package-level map over time: lookups from the request
    path and runs of the cleanup ticker, in some order. *)
Module CacheRuns.
Import GoTime Identity UserIDCache.

(** One lookup: the instant and the draw of the random source. *)
Definition Call : Type := Time * Entropy.

(** Successive lookups of one API key, threading the cache, with the values
    they return. *)
Fixpoint keyLookups (st : State) (apiKey : string) (calls : list Call)
    : State * list string :=
  match calls with
  | [] => (st, [])
  | (now, rnd) :: calls' =>
      let (st1, v) := ByAPIKey.cachedUserID st now rnd apiKey in
      let (st2, vs) := keyLookups st1 apiKey calls' in
      (st2, v :: vs)
  end.

(** Successive lookups of one (provider, model) pair. *)
Fixpoint pairLookups (st : State) (provider model : string) (calls : list Call)
    : State * list string :=
  match calls with
  | [] => (st, [])
  | (now, rnd) :: calls' =>
      let (st1, v) := ByProviderModel.cachedUserID st now rnd provider model in
      let (st2, vs) := pairLookups st1 provider model calls' in
      (st2, v :: vs)
  end.

(** The body of [startUserIDCacheCleanup]: one purge per tick. *)
Definition cleanupTicks (ticks : list Time) (st : State) : State :=
  fold_left (λ st now, purgeExpiredUserIDs now st) ticks st.

Inductive KeyOp :=
  | KeyLookup (now : Time) (rnd : Entropy) (apiKey : string)
  | KeyPurge (now : Time).

Definition keyStep (st : State) (op : KeyOp) : State :=
  match op with
  | KeyLookup now rnd apiKey => (ByAPIKey.cachedUserID st now rnd apiKey).1
  | KeyPurge now => purgeExpiredUserIDs now st
  end.

Inductive PairOp :=
  | PairLookup (now : Time) (rnd : Entropy) (provider model : string)
  | PairPurge (now : Time).

Definition pairStep (st : State) (op : PairOp) : State :=
  match op with
  | PairLookup now rnd provider model =>
      (ByProviderModel.cachedUserID st now rnd provider model).1
  | PairPurge now => purgeExpiredUserIDs now st
  end.

(** Every stored value is a well-formed identity. *)
Definition AllValid (st : State) : Prop :=
  ∀ k e, userIDCache st !! k = Some e → isValidUserID (value e) = true.

(** Each lookup comes no later than one TTL after the one before it. *)
Fixpoint gapsWithinTTL (previous : Time) (calls : list Call) : Prop :=
  match calls with
  | [] => True
  | (now, _) :: calls' =>
      (now ≤ Add previous userIDTTL)%Z ∧ gapsWithinTTL now calls'
  end.

(** No byte of the string is the separator of [cacheKey]. *)
Fixpoint noBar (s : string) : bool :=
  match s with
  | EmptyString => true
  | String c s' => negb (bool_decide (c = "|"%char)) && noBar s'
  end.

End CacheRuns.

(** ** The counting executor of [TestCheckRefreshesLimitsConcurrency]
    ([sdk/cliproxy/auth/conductor_refresh_test.go]) *)
Module RefreshLimiter.

(** The two counters of [refreshLimiterExecutor], guarded by its mutex. *)
Record Counters := {
  current : Z;
  max : Z;
}.

Definition fresh : Counters := {| current := 0; max := 0 |}.

(** The locked section at the start of [Refresh]. *)
Definition enter (r : Counters) : Counters :=
  let c := (current r + 1)%Z in
  {| current := c; max := if (max r <? c)%Z then c else max r |}.

(** The deferred function of [Refresh]. *)
Definition leave (r : Counters) : Counters :=
  {| current := (current r - 1)%Z; max := max r |}.

Definition MaxConcurrent (r : Counters) : Z := max r.

(** The locked sections are atomic, so a test run is a sequence of
    entries and exits. *)
Inductive Event :=
  | Entered
  | Left.

Definition observe (r : Counters) (e : Event) : Counters :=
  match e with
  | Entered => enter r
  | Left => leave r
  end.

Definition observeAll (r : Counters) (es : list Event) : Counters :=
  fold_left observe es r.

(** The number of calls in flight after a sequence of events. *)
Fixpoint inFlight (es : list Event) : Z :=
  match es with
  | [] => 0
  | Entered :: es' => (inFlight es' + 1)%Z
  | Left :: es' => (inFlight es' - 1)%Z
  end.

End RefreshLimiter.

(** ** The standalone end-to-end test ([runE2ETest], [findRepoRoot]) *)
Module e2e.
Import GoStrings.

(** [findRepoRoot] returns [(string, error)]: a directory, or the text of an
    error.  A directory is the list of its path components, innermost
    first, so that [filepath.Dir] drops the head and the root is the empty
    list, its own parent.  [getwd] is what [os.Getwd()] answers, and
    [hasGoMod dir] tells whether [os.Stat(filepath.Join(dir, "go.mod"))]
    succeeds. *)
Definition goModNotFound : string := "go.mod not found".

(** The loop, from [dir] upwards. *)
Fixpoint climb (hasGoMod : list string → bool) (dir : list string)
    : string + list string :=
  if hasGoMod dir then inr dir
  else match dir with
       | [] => inl goModNotFound
       | _ :: parent => climb hasGoMod parent
       end.

Definition findRepoRoot (getwd : string + list string)
    (hasGoMod : list string → bool) : string + list string :=
  match getwd with
  | inl err => inl err
  | inr dir => climb hasGoMod dir
  end.

(** [proxyPort := 18317 + (time.Now().Unix() % 1000)]; Go's [%] truncates
    towards zero. *)
Definition proxyPort (unix : Z) : Z := (18317 + Z.rem unix 1000)%Z.

(** The wait for the server to come up: [maxWait*10] polls of its output,
    [output i] being what the buffer holds at poll [i]. *)
Definition maxWait : nat := 10.

Inductive WaitOutcome :=
  | ServerReady (polls : nat)
  | ServerFailed (output : string)
  | ServerTimeout (output : string).

Definition readyMarker (output : string) : bool :=
  Contains output "API server started successfully on:" ||
  Contains output "full client load complete".

Definition errorMarker (output : string) : bool :=
  Contains output "exited with error" || Contains output "FATAL".

(** [i] counts the polls done, [fuel] those left. *)
Fixpoint waitLoop (output : nat → string) (i fuel : nat) : WaitOutcome :=
  match fuel with
  | O => ServerTimeout (output i)
  | S fuel' =>
      if readyMarker (output i) then ServerReady (S i)
      else if errorMarker (output i) then ServerFailed (output i)
      else waitLoop output (S i) fuel'
  end.

Definition waitForServer (output : nat → string) : WaitOutcome :=
  waitLoop output 0 (maxWait * 10).

(** Step 6, the verdict on the identities the fake upstream captured.  The
    messages are [fmt.Sprintf] of a fixed text and the values kept here. *)
Inductive Message :=
  | ExpectedTwoRequests (got : nat)
  | UserIDNotPopulated
  | ExpectedSameUserID (first second : string)
  | InvalidUserIDFormat (id : string)
  | SameUserIDUsed (id : string).

Record testResult := {
  pass : bool;
  message : Message;
}.

Definition formatCheck (id : string) : bool :=
  HasPrefix id "user_" && Contains id "_account__session_".

Definition verifyCaptured (capturedUserIDs : list string) : testResult :=
  match capturedUserIDs with
  | [first; second] =>
      if bool_decide (first = "") || bool_decide (second = "") then
        {| pass := false; message := UserIDNotPopulated |}
      else if negb (bool_decide (first = second)) then
        {| pass := false; message := ExpectedSameUserID first second |}
      else if negb (formatCheck first) then
        {| pass := false; message := InvalidUserIDFormat first |}
      else {| pass := true; message := SameUserIDUsed first |}
  | _ =>
      {| pass := false; message := ExpectedTwoRequests (length capturedUserIDs) |}
  end.

End e2e.

(** ** Sample draws and cache states *)
Module Samples.
Import GoTime Identity UserIDCache.

Definition zeroTape : Entropy := λ _, 0%N.
Definition countTape : Entropy := λ i, N.of_nat i.

(** Three due records of two providers. *)
Definition threeDue : list AdmissionGate.Due :=
  [ {| AdmissionGate.due_id := "auth-0"; AdmissionGate.due_provider := "codex" |};
    {| AdmissionGate.due_id := "auth-1"; AdmissionGate.due_provider := "claude" |};
    {| AdmissionGate.due_id := "auth-2"; AdmissionGate.due_provider := "codex" |} ].

Definition sonnetKey : string :=
  ByProviderModel.cacheKey "claude" "claude-3-5-sonnet".

(** A cache holding one identity, minted from [zeroTape], that runs out at
    [until]. *)
Definition holding (key : string) (until : Time) : State :=
  {| userIDCache :=
       {[ key := {| value := generateFakeUserID zeroTape; expire := until |} ]};
     cleanupStarted := true |}.

End Samples.

(** * Properties *)

(** ** The strings interface *)
Module GoStringsFacts.
Import GoStrings.

Lemma allSpace_isASCII s : allSpace s = true → isASCII s = true.
Proof.
  induction s as [|c s IH]; simpl; [done|].
  intros [Hc Hs]%andb_true_iff. rewrite (IH Hs), andb_true_r.
  apply N.ltb_lt. unfold isSpace in Hc.
  apply orb_true_iff in Hc as [Hc|Hc].
  - apply N.eqb_eq in Hc. lia.
  - apply andb_true_iff in Hc as [_ Hc]. apply N.leb_le in Hc. lia.
Qed.

Lemma TrimLeft_allSpace s : allSpace s = true → ASCII.TrimLeft s = "".
Proof.
  induction s as [|c s IH]; simpl; [done|].
  intros [Hc Hs]%andb_true_iff. rewrite Hc. by apply IH.
Qed.

Section interface.
Context `{!Strings}.

Lemma TrimSpace_allSpace s : allSpace s = true → TrimSpace s = "".
Proof.
  intros Hs. rewrite TrimSpace_ASCII by (by apply allSpace_isASCII).
  unfold ASCII.TrimSpace. by rewrite TrimLeft_allSpace.
Qed.

Lemma TrimSpace_empty : TrimSpace "" = "".
Proof. by apply TrimSpace_allSpace. Qed.

(** Letter case is folded on ASCII strings whatever the tables. *)
Lemma EqualFold_codex : EqualFold "CODEX" "codex" = true.
Proof. by rewrite EqualFold_ASCII. Qed.

End interface.

End GoStringsFacts.

(** ** The identity format *)
Module IdentityFacts.
Import Identity.

Lemma string_app_cons c (s r : string) : String c s +:+ r = String c (s +:+ r).
Proof. reflexivity. Qed.

Lemma string_app_nil_l (r : string) : "" +:+ r = r.
Proof. reflexivity. Qed.

Lemma string_app_nil_r (s : string) : s +:+ "" = s.
Proof.
  induction s as [|c s IH]; [done|]. by rewrite string_app_cons, IH.
Qed.

Lemma expectLit_Some lit s r : expectLit lit s = Some r ↔ s = lit +:+ r.
Proof.
  revert s. induction lit as [|c lit IH]; intros s; simpl.
  - rewrite string_app_nil_l. split; congruence.
  - rewrite string_app_cons. destruct s as [|d s]; [split; discriminate|].
    destruct (decide (c = d)) as [->|Hne].
    + rewrite IH. split; [by intros ->|by intros [= ->]].
    + split; [discriminate|]. intros [= ? ?]. by destruct Hne.
Qed.

Lemma expectHex_Some n s r :
  expectHex n s = Some r ↔ ∃ d, LowerHex n d ∧ s = d +:+ r.
Proof.
  revert s. induction n as [|n IH]; intros s; simpl.
  - split.
    + intros [= ->]. exists "". split; [constructor|done].
    + intros (d & Hd & ->). by inversion Hd.
  - destruct s as [|c s].
    + split; [discriminate|]. intros (d & Hd & Hs). by inversion Hd; subst.
    + destruct (isLowerHex c) eqn:Hc.
      * rewrite IH. split.
        -- intros (d & Hd & ->). exists (String c d). split; [by constructor|done].
        -- intros (d & Hd & Hs). inversion Hd; subst.
           rewrite string_app_cons in Hs. injection Hs as -> ->. eauto.
      * split; [discriminate|]. intros (d & Hd & Hs).
        inversion Hd; subst. rewrite string_app_cons in Hs.
        injection Hs as -> ->. congruence.
Qed.

Lemma expectLit_app lit r : expectLit lit (lit +:+ r) = Some r.
Proof. by apply expectLit_Some. Qed.

Lemma expectHex_app n d r : LowerHex n d → expectHex n (d +:+ r) = Some r.
Proof. intros Hd. apply expectHex_Some. eauto. Qed.

Lemma LowerHex_length n d : LowerHex n d → String.length d = n.
Proof. induction 1; simpl; congruence. Qed.

Lemma LowerHex_app n m d e :
  LowerHex n d → LowerHex m e → LowerHex (n + m) (d +:+ e).
Proof.
  induction 1; intros He; [done|].
  rewrite string_app_cons. simpl. constructor; auto.
Qed.

(** Consume the next piece of the pattern in the goal. *)
Ltac step_piece :=
  let E := fresh "E" in
  match goal with
  | |- context [expectLit ?l ?x] =>
      is_var x; destruct (expectLit l x) eqn:E; [|discriminate]
  | |- context [expectHex ?n ?x] =>
      is_var x; destruct (expectHex n x) eqn:E; [|discriminate]
  end.

(** The validator and the declarative pattern agree. *)
Lemma isValidUserID_Conforming s : isValidUserID s = true ↔ Conforming s.
Proof.
  unfold isValidUserID, Conforming, userIDPattern, userPrefix, sessionSeparator.
  cbn [matchPieces matchPiece]. split.
  - repeat step_piece.
    match goal with |- context [match ?r with EmptyString => _ | String _ _ => _ end] =>
      destruct r; [|discriminate] end.
    intros _.
    repeat match goal with
    | H : expectLit _ _ = Some _ |- _ => apply expectLit_Some in H
    | H : expectHex _ _ = Some _ |- _ =>
        apply expectHex_Some in H; destruct H as (? & ? & ?)
    end.
    subst. do 6 eexists.
    repeat match goal with |- _ ∧ _ => split end;
      [..|rewrite string_app_nil_r; reflexivity]; eassumption.
  - intros (digest & u1 & u2 & u3 & u4 & u5 & Hd & H1 & H2 & H3 & H4 & H5 & ->).
    rewrite <- (string_app_nil_r u5).
    repeat first
      [ rewrite expectLit_app
      | rewrite (expectHex_app _ _ _ Hd) | rewrite (expectHex_app _ _ _ H1)
      | rewrite (expectHex_app _ _ _ H2) | rewrite (expectHex_app _ _ _ H3)
      | rewrite (expectHex_app _ _ _ H4) | rewrite (expectHex_app _ _ _ H5) ].
    reflexivity.
Qed.

Lemma isLowerHex_hexDigit n : isLowerHex (hexDigit n) = true.
Proof.
  unfold hexDigit.
  assert (Hall : Forall (λ c, isLowerHex c = true) hexChars).
  { unfold hexChars. simpl. repeat constructor. }
  assert (Hlt : N.to_nat (n mod 16) < length hexChars).
  { unfold hexChars; simpl. pose proof (N.mod_upper_bound n 16). lia. }
  rewrite Forall_forall in Hall. by apply Hall, list_elem_of_In, nth_In.
Qed.

Lemma LowerHex_hexEncode bs : LowerHex (2 * length bs) (hexEncode bs).
Proof.
  induction bs as [|b bs IH]; simpl; [constructor|].
  replace (S (length bs + S (length bs + 0))) with (S (S (2 * length bs))) by lia.
  constructor; [apply isLowerHex_hexDigit|].
  constructor; [apply isLowerHex_hexDigit|done].
Qed.

Lemma LowerHex_hexEncode_n n bs :
  length bs = n → LowerHex (2 * n) (hexEncode bs).
Proof. intros <-. apply LowerHex_hexEncode. Qed.

Lemma length_randBytes rnd off len : length (randBytes rnd off len) = len.
Proof. unfold randBytes. by rewrite length_map, length_seq. Qed.

Lemma generateFakeUserID_Conforming rnd : Conforming (generateFakeUserID rnd).
Proof.
  unfold Conforming, generateFakeUserID, uuidString, userPrefix, sessionSeparator.
  do 6 eexists.
  repeat match goal with |- _ ∧ _ => split end; [..|reflexivity].
  - apply (LowerHex_hexEncode_n 32), length_randBytes.
  - apply (LowerHex_hexEncode_n 4). rewrite length_take, length_randBytes. lia.
  - apply (LowerHex_hexEncode_n 2).
    rewrite length_take, length_drop, length_randBytes. lia.
  - apply (LowerHex_hexEncode_n 2).
    rewrite length_take, length_drop, length_randBytes. lia.
  - apply (LowerHex_hexEncode_n 2).
    rewrite length_take, length_drop, length_randBytes. lia.
  - apply (LowerHex_hexEncode_n 6).
    rewrite length_take, length_drop, length_randBytes. lia.
Qed.

Lemma generateFakeUserID_valid rnd : isValidUserID (generateFakeUserID rnd) = true.
Proof. apply isValidUserID_Conforming, generateFakeUserID_Conforming. Qed.

Lemma generateFakeUserID_nonempty rnd : generateFakeUserID rnd ≠ "".
Proof. discriminate. Qed.

End IdentityFacts.

(** ** The force-refresh handler *)
Module ForceRefreshFacts.
Import GoStrings GoTime coreauth management management.Flat.

Lemma setID_same a : setID (ID a) a = a.
Proof. by destruct a. Qed.

Lemma setProvider_same a : setProvider (coreauth.Provider a) a = a.
Proof. by destruct a. Qed.

Lemma setRuntime_same a : setRuntime (Runtime a) a = a.
Proof. by destruct a. Qed.

(** What the record handed to [Update] carries, in either revision. *)
Lemma recordToPersist_stamps now auth refreshed :
  let r := recordToPersist now auth refreshed in
  ID r = ID (returnedRecord auth refreshed) ∧
  coreauth.Provider r = coreauth.Provider (returnedRecord auth refreshed) ∧
  Metadata r = Metadata (default (Clone auth) refreshed) ∧
  LastRefreshedAt r = now ∧
  NextRefreshAfter r = zero ∧
  LastError r = None ∧
  UpdatedAt r = now.
Proof.
  unfold recordToPersist, returnedRecord. cbv zeta.
  repeat (case_match; simpl; try done).
Qed.

Lemma recordToUpdate_stamps now auth refreshed :
  let r := Listed.recordToUpdate now auth refreshed in
  ID r = ID (default (Clone auth) refreshed) ∧
  coreauth.Provider r = coreauth.Provider (default (Clone auth) refreshed) ∧
  Metadata r = Metadata (default (Clone auth) refreshed) ∧
  LastRefreshedAt r = now ∧
  NextRefreshAfter r = zero ∧
  LastError r = None ∧
  UpdatedAt r = now.
Proof.
  unfold Listed.recordToUpdate. cbv zeta.
  repeat (case_match; simpl; try done).
Qed.



Section generic.
Context `{!Strings} {M : Type} `{!Manager M}.

Lemma filter_passes (f p : string) :
  f = "" ∨ EqualFold f p = true →
  negb (bool_decide (f = "")) && negb (EqualFold f p) = false.
Proof. intros [->| ->]; [done|by rewrite andb_false_r]. Qed.

Lemma filter_rejects (f p : string) :
  f ≠ "" → EqualFold f p = false →
  negb (bool_decide (f = "")) && negb (EqualFold f p) = true.
Proof. intros Hne ->. by rewrite bool_decide_eq_false_2. Qed.

(** The tail of the handler, from the return of [Refresh] on. *)
Lemma tail_afterRefresh (m : M) now auth refreshed :
  (let fail := failure (ID auth) (coreauth.Provider auth) in
   let updated := default (Clone auth) refreshed in
   let updated :=
     if decide (ID updated = "") then setID (ID auth) updated else updated in
   if negb (bool_decide (ID updated = ID auth)) then
     (withManager m,
      (StatusInternalServerError, fail "executor returned mismatched auth id"))
   else
   let updated :=
     if decide (coreauth.Provider updated = "")
     then setProvider (coreauth.Provider auth) updated else updated in
   if negb (EqualFold (coreauth.Provider updated) (coreauth.Provider auth)) then
     (withManager m,
      (StatusInternalServerError, fail "executor returned mismatched provider"))
   else
   let updated :=
     match Runtime updated with
     | None => setRuntime (Runtime auth) updated
     | Some _ => updated
     end in
   let updated := setLastRefreshedAt now updated in
   let updated := setNextRefreshAfter zero updated in
   let updated := setLastError None updated in
   let updated := setUpdatedAt now updated in
   match Update m updated with
   | (m', (_, Some errUpdate)) =>
       (withManager m', (StatusInternalServerError, fail errUpdate))
   | (m', (None, None)) =>
       (withManager m',
        (StatusInternalServerError, fail "failed to persist refreshed auth"))
   | (m', (Some persisted, None)) =>
       (withManager m',
        (StatusOK,
         {| AuthID := ID persisted;
            Provider := coreauth.Provider persisted;
            Refreshed := true;
            Error := "";
            Auth := Some (Clone persisted) |}))
   end) = afterRefresh m now auth refreshed.
Proof.
  unfold afterRefresh, recordToPersist, returnedRecord; cbv zeta.
  set (u := default (Clone auth) refreshed).
  destruct (decide (ID u = "")) as [Hu|Hu];
    destruct (decide (coreauth.Provider _ = "")) as [Hp|Hp]; simpl;
    repeat case_bool_decide; repeat case_decide; simpl in *; try done.
Qed.

(** The handler on a body that binds, with [afterRefresh] as its tail. *)
Lemma PostForceRefreshTokens_bound (m : M) now body :
  body ≠ BodyMalformed →
  PostForceRefreshTokens (withManager m) now body =
    let providerFilter := ToLower (TrimSpace (req_Provider (requestOf body))) in
    let authID := TrimSpace (req_AuthID (requestOf body)) in
    if decide (authID = "") then
      (withManager m,
       (StatusBadRequest, failure authID providerFilter "auth_id is required"))
    else
    match GetByID m authID with
    | None =>
        (withManager m,
         (StatusNotFound, failure authID providerFilter "auth not found"))
    | Some auth =>
        let fail := failure (ID auth) (coreauth.Provider auth) in
        if negb (bool_decide (providerFilter = ""))
           && negb (EqualFold providerFilter (coreauth.Provider auth)) then
          (withManager m, (StatusBadRequest, fail "provider mismatch"))
        else
        match Executor m (TrimSpace (coreauth.Provider auth)) with
        | None =>
            (withManager m, (StatusBadRequest, fail "executor not registered"))
        | Some exec =>
            match Refresh exec (Clone auth) with
            | (_, Some errRefresh) =>
                (withManager m, (StatusBadRequest, fail errRefresh))
            | (refreshed, None) => afterRefresh m now auth refreshed
            end
        end
    end.
Proof.
  intros Hbody. unfold PostForceRefreshTokens. cbn [authManager withManager].
  destruct body as [| |req]; [|done|]; cbv zeta.
  all: destruct (decide (TrimSpace _ = "")); [done|].
  all: destruct (GetByID m _) as [auth|]; [|done].
  all: destruct (negb (bool_decide _) && negb (EqualFold _ _)); [done|].
  all: destruct (Executor m _) as [exec|]; [|done].
  all: destruct (Refresh exec (Clone auth)) as [refreshed [errRefresh|]]; [done|].
  all: apply tail_afterRefresh.
Qed.

Lemma PostForceRefreshTokens_afterRefresh (m : M) now body auth exec refreshed :
  reachesRefresh m body auth exec →
  Refresh exec (Clone auth) = (refreshed, None) →
  PostForceRefreshTokens (withManager m) now body = afterRefresh m now auth refreshed.
Proof.
  intros (Hbody & Hid & Hget & Hfilter & Hexec) Href.
  rewrite PostForceRefreshTokens_bound by done. cbv zeta.
  rewrite decide_False, Hget, (filter_passes _ _ Hfilter), Hexec, Href by done.
  done.
Qed.

(** A call answered with status OK went all the way through [Update]. *)
Lemma PostForceRefreshTokens_OK_inv (m : M) now body h' resp :
  PostForceRefreshTokens (withManager m) now body = (h', (StatusOK, resp)) →
  ∃ m' auth exec refreshed persisted,
    reachesRefresh m body auth exec ∧
    Refresh exec (Clone auth) = (refreshed, None) ∧
    ID (returnedRecord auth refreshed) = ID auth ∧
    EqualFold (coreauth.Provider (returnedRecord auth refreshed))
              (coreauth.Provider auth) = true ∧
    Update m (recordToPersist now auth refreshed) = (m', (Some persisted, None)) ∧
    h' = withManager m' ∧
    resp = {| AuthID := ID persisted; Provider := coreauth.Provider persisted;
              Refreshed := true; Error := ""; Auth := Some persisted |}.
Proof.
  intros Hrun.
  assert (Hbody : body ≠ BodyMalformed).
  { intros ->. discriminate Hrun. }
  rewrite PostForceRefreshTokens_bound in Hrun by done. cbv zeta in Hrun.
  destruct (decide (TrimSpace (req_AuthID (requestOf body)) = "")) as [|Hid];
    [discriminate Hrun|].
  destruct (GetByID m _) as [auth|] eqn:Hget; [|discriminate Hrun].
  destruct (negb (bool_decide _) && negb (EqualFold _ _)) eqn:Hfilter;
    [discriminate Hrun|].
  destruct (Executor m _) as [exec|] eqn:Hexec; [|discriminate Hrun].
  destruct (Refresh exec (Clone auth)) as [refreshed [errRefresh|]] eqn:Href;
    [discriminate Hrun|].
  assert (Hreach : reachesRefresh m body auth exec).
  { repeat split; try done.
    apply andb_false_iff in Hfilter as [Hf|Hf]; apply negb_false_iff in Hf.
    - left. by apply bool_decide_eq_true in Hf.
    - by right. }
  unfold afterRefresh in Hrun. cbv zeta in Hrun.
  destruct (decide (ID (returnedRecord auth refreshed) ≠ ID auth)) as [|Hsame];
    [discriminate Hrun|].
  apply dec_stable in Hsame.
  destruct (EqualFold (coreauth.Provider (returnedRecord auth refreshed))
             (coreauth.Provider auth)) eqn:Hfold;
    simpl in Hrun; [|discriminate Hrun].
  destruct (Update m _) as [m' [[persisted|] [errUpdate|]]] eqn:Hupd;
    try discriminate Hrun.
  injection Hrun as <- <-.
  exists m', auth, exec, refreshed, persisted. done.
Qed.

(** The revision of [auth_refresh.go] on a body that binds, up to the call
    of [Update]. *)
Lemma Listed_bound (m : M) now body :
  body ≠ BodyMalformed →
  Listed.PostForceRefreshTokens (withManager m) now body =
    let providerFilter := ToLower (TrimSpace (req_Provider (requestOf body))) in
    let authID := TrimSpace (req_AuthID (requestOf body)) in
    if decide (authID = "") then
      (withManager m, (StatusBadRequest, Listed.ErrorOnly "auth_id is required"))
    else
    match GetByID m authID with
    | None => (withManager m, (StatusNotFound, Listed.ErrorOnly "auth not found"))
    | Some auth =>
        let fail := Listed.failure (ID auth) (coreauth.Provider auth) in
        if negb (bool_decide (providerFilter = ""))
           && negb (EqualFold providerFilter (coreauth.Provider auth)) then
          (withManager m, (StatusBadRequest, Listed.ErrorOnly "provider mismatch"))
        else
        match Executor m (TrimSpace (coreauth.Provider auth)) with
        | None =>
            (withManager m,
             (StatusBadRequest, Listed.Results [fail "executor not registered"]))
        | Some exec =>
            match Refresh exec (Clone auth) with
            | (_, Some errRefresh) =>
                (withManager m,
                 (StatusBadRequest, Listed.Results [fail errRefresh]))
            | (refreshed, None) =>
                match Update m (Listed.recordToUpdate now auth refreshed) with
                | (m', (_, Some errUpdate)) =>
                    (withManager m',
                     (StatusBadRequest, Listed.Results [fail errUpdate]))
                | (m', (_, None)) =>
                    (withManager m',
                     (StatusOK,
                      Listed.Results
                        [ {| Listed.ID := ID auth;
                             Listed.Provider := coreauth.Provider auth;
                             Listed.Refreshed := true;
                             Listed.Error := "";
                             Listed.Auth :=
                               Some (Listed.recordToUpdate now auth refreshed) |} ]))
                end
            end
        end
    end.
Proof.
  intros Hbody. unfold Listed.PostForceRefreshTokens.
  cbn [authManager withManager].
  destruct body as [| |req]; [|done|]; cbv zeta.
  all: destruct (decide (TrimSpace _ = "")); [done|].
  all: destruct (GetByID m _) as [auth|]; [|done].
  all: destruct (negb (bool_decide _) && negb (EqualFold _ _)); [done|].
  all: destruct (Executor m _) as [exec|]; [|done].
  all: destruct (Refresh exec (Clone auth)) as [refreshed [errRefresh|]]; [done|].
  all: reflexivity.
Qed.

Lemma Listed_afterRefresh (m : M) now body auth exec refreshed :
  reachesRefresh m body auth exec →
  Refresh exec (Clone auth) = (refreshed, None) →
  Listed.PostForceRefreshTokens (withManager m) now body =
    match Update m (Listed.recordToUpdate now auth refreshed) with
    | (m', (_, Some errUpdate)) =>
        (withManager m',
         (StatusBadRequest,
          Listed.Results
            [Listed.failure (ID auth) (coreauth.Provider auth) errUpdate]))
    | (m', (_, None)) =>
        (withManager m',
         (StatusOK,
          Listed.Results
            [ {| Listed.ID := ID auth;
                 Listed.Provider := coreauth.Provider auth;
                 Listed.Refreshed := true;
                 Listed.Error := "";
                 Listed.Auth :=
                   Some (Listed.recordToUpdate now auth refreshed) |} ]))
    end.
Proof.
  intros (Hbody & Hid & Hget & Hfilter & Hexec) Href.
  rewrite Listed_bound by done. cbv zeta.
  by rewrite decide_False, Hget, (filter_passes _ _ Hfilter), Hexec, Href.
Qed.

(** In that revision a call answered with status OK handed its record to
    [Update], which reported no error. *)
Lemma Listed_OK_inv (m : M) now body h' payload :
  Listed.PostForceRefreshTokens (withManager m) now body
    = (h', (StatusOK, payload)) →
  ∃ m' auth exec refreshed p,
    reachesRefresh m body auth exec ∧
    Refresh exec (Clone auth) = (refreshed, None) ∧
    Update m (Listed.recordToUpdate now auth refreshed) = (m', (p, None)) ∧
    h' = withManager m' ∧
    payload = Listed.Results
                [ {| Listed.ID := ID auth;
                     Listed.Provider := coreauth.Provider auth;
                     Listed.Refreshed := true;
                     Listed.Error := "";
                     Listed.Auth :=
                       Some (Listed.recordToUpdate now auth refreshed) |} ].
Proof.
  intros Hrun.
  assert (Hbody : body ≠ BodyMalformed).
  { intros ->. discriminate Hrun. }
  rewrite Listed_bound in Hrun by done. cbv zeta in Hrun.
  destruct (decide (TrimSpace (req_AuthID (requestOf body)) = "")) as [|Hid];
    [discriminate Hrun|].
  destruct (GetByID m _) as [auth|] eqn:Hget; [|discriminate Hrun].
  destruct (negb (bool_decide _) && negb (EqualFold _ _)) eqn:Hfilter;
    [discriminate Hrun|].
  destruct (Executor m _) as [exec|] eqn:Hexec; [|discriminate Hrun].
  destruct (Refresh exec (Clone auth)) as [refreshed [errRefresh|]] eqn:Href;
    [discriminate Hrun|].
  assert (Hreach : reachesRefresh m body auth exec).
  { repeat split; try done.
    apply andb_false_iff in Hfilter as [Hf|Hf]; apply negb_false_iff in Hf.
    - left. by apply bool_decide_eq_true in Hf.
    - by right. }
  destruct (Update m _) as [m' [p [errUpdate|]]] eqn:Hupd;
    [discriminate Hrun|].
  injection Hrun as <- <-.
  exists m', auth, exec, refreshed, p. done.
Qed.

(** C1 (as amended).  Let [Refresh] succeed.  In the revision that checks
    what the executor hands back: a record whose identifier, after
    defaulting an empty one, is not the stored record's is answered
    internal-error, "executor returned mismatched auth id"; one whose
    provider, after defaulting an empty one, is not the stored record's
    under [EqualFold] is answered internal-error, "executor returned
    mismatched provider"; both with refreshed=false and the manager the
    call started with.  A record with the stored identifier and a provider
    that [EqualFold] accepts, as it does one that differs from the stored
    provider in the case of ASCII letters only, goes to [Update] with the
    provider as the executor spelled it, and the answer is read off what
    [Update] returns.
    In the revision of [auth_refresh.go] nothing is checked: the record
    goes to [Update] under the identifier and provider the executor gave
    it, and the answer is read off the error of [Update] alone. *)
Theorem executor_mismatch_C1 (m : M) now body auth exec refreshed :
  reachesRefresh m body auth exec →
  Refresh exec (Clone auth) = (refreshed, None) →
  let returned := returnedRecord auth refreshed in
  let flat := PostForceRefreshTokens (withManager m) now body in
  let listed := Listed.PostForceRefreshTokens (withManager m) now body in
  (ID returned ≠ ID auth →
     flat = (withManager m,
             (StatusInternalServerError,
              failure (ID auth) (coreauth.Provider auth)
                      "executor returned mismatched auth id"))) ∧
  (ID returned = ID auth →
   EqualFold (coreauth.Provider returned) (coreauth.Provider auth) = false →
     flat = (withManager m,
             (StatusInternalServerError,
              failure (ID auth) (coreauth.Provider auth)
                      "executor returned mismatched provider"))) ∧
  (ID returned = ID auth →
   EqualFold (coreauth.Provider returned) (coreauth.Provider auth) = true →
     let r := recordToPersist now auth refreshed in
     ID r = ID auth ∧
     coreauth.Provider r = coreauth.Provider returned ∧
     flat = match Update m r with
            | (m', (_, Some errUpdate)) =>
                (withManager m',
                 (StatusInternalServerError,
                  failure (ID auth) (coreauth.Provider auth) errUpdate))
            | (m', (None, None)) =>
                (withManager m',
                 (StatusInternalServerError,
                  failure (ID auth) (coreauth.Provider auth)
                          "failed to persist refreshed auth"))
            | (m', (Some persisted, None)) =>
                (withManager m',
                 (StatusOK,
                  {| AuthID := ID persisted;
                     Provider := coreauth.Provider persisted;
                     Refreshed := true; Error := "";
                     Auth := Some persisted |}))
            end) ∧
  (ID returned = ID auth →
   isASCII (coreauth.Provider returned) = true →
   isASCII (coreauth.Provider auth) = true →
   ASCII.EqualFold (coreauth.Provider returned) (coreauth.Provider auth) = true →
     let r := recordToPersist now auth refreshed in
     coreauth.Provider r = coreauth.Provider returned ∧
     flat.1 = withManager (Update m r).1) ∧
  (let r := Listed.recordToUpdate now auth refreshed in
   ID r = ID (default (Clone auth) refreshed) ∧
   coreauth.Provider r = coreauth.Provider (default (Clone auth) refreshed) ∧
   listed = match Update m r with
            | (m', (_, Some errUpdate)) =>
                (withManager m',
                 (StatusBadRequest,
                  Listed.Results
                    [Listed.failure (ID auth) (coreauth.Provider auth)
                                    errUpdate]))
            | (m', (_, None)) =>
                (withManager m',
                 (StatusOK,
                  Listed.Results
                    [ {| Listed.ID := ID auth;
                         Listed.Provider := coreauth.Provider auth;
                         Listed.Refreshed := true;
                         Listed.Error := "";
                         Listed.Auth := Some r |} ]))
            end).
Proof.
  intros Hreach Href returned flat listed. subst flat listed.
  rewrite (PostForceRefreshTokens_afterRefresh _ _ _ _ _ _ Hreach Href).
  rewrite (Listed_afterRefresh _ _ _ _ _ _ Hreach Href).
  unfold afterRefresh. cbv zeta. fold returned. split_and!.
  - intros Hne. by rewrite decide_True.
  - intros Heq Hfold. rewrite decide_False by (by intros ?). by rewrite Hfold.
  - intros Heq Hfold. rewrite decide_False by (by intros ?). rewrite Hfold.
    destruct (recordToPersist_stamps now auth refreshed) as (Hid & Hprov & _).
    split_and!; [by rewrite Hid|done|done].
  - intros Heq Hs Ht Hfold.
    destruct (recordToPersist_stamps now auth refreshed) as (_ & Hprov & _).
    split; [done|].
    rewrite decide_False by (by intros ?).
    rewrite EqualFold_ASCII, Hfold by done. simpl.
    by destruct (Update m _) as [m' [[persisted|] [errUpdate|]]].
  - by destruct (recordToUpdate_stamps now auth refreshed) as (? & ? & _).
  - by destruct (recordToUpdate_stamps now auth refreshed) as (? & ? & _).
  - done.
Qed.

(** C2 (as amended).  When [Refresh] succeeds and [Update] then fails: the
    revision that checks what the executor hands back (the record having
    passed the checks) answers internal-error with the text of the update
    error and refreshed=false; the revision of [auth_refresh.go] answers
    bad-request, with one result that carries the text of the update error
    and refreshed=false. *)
Theorem persistence_failure_C2 (m : M) now body auth exec refreshed
    m' persisted errUpdate :
  reachesRefresh m body auth exec →
  Refresh exec (Clone auth) = (refreshed, None) →
  (ID (returnedRecord auth refreshed) = ID auth →
   EqualFold (coreauth.Provider (returnedRecord auth refreshed))
             (coreauth.Provider auth) = true →
   Update m (recordToPersist now auth refreshed)
     = (m', (persisted, Some errUpdate)) →
   PostForceRefreshTokens (withManager m) now body
     = (withManager m',
        (StatusInternalServerError,
         {| AuthID := ID auth; Provider := coreauth.Provider auth;
            Refreshed := false; Error := errUpdate; Auth := None |}))) ∧
  (Update m (Listed.recordToUpdate now auth refreshed)
     = (m', (persisted, Some errUpdate)) →
   Listed.PostForceRefreshTokens (withManager m) now body
     = (withManager m',
        (StatusBadRequest,
         Listed.Results
           [ {| Listed.ID := ID auth;
                Listed.Provider := coreauth.Provider auth;
                Listed.Refreshed := false; Listed.Error := errUpdate;
                Listed.Auth := None |} ]))).
Proof.
  intros Hreach Href. split.
  - intros Hid Hfold Hupd.
    rewrite (PostForceRefreshTokens_afterRefresh _ _ _ _ _ _ Hreach Href).
    unfold afterRefresh. cbv zeta.
    rewrite decide_False by (by intros ?). rewrite Hfold, Hupd.
    by destruct persisted.
  - intros Hupd.
    rewrite (Listed_afterRefresh _ _ _ _ _ _ Hreach Href), Hupd.
    by destruct persisted.
Qed.

(** C3 (as amended).  The failures before success, each with its status
    and message in both revisions, and none touching the manager: a body
    that does not parse, an identifier empty after trimming, an unknown
    identifier, a provider filter that is not empty and does not match the
    record's provider, no executor for the record's provider, an error from
    [Refresh].  In the revision with the flat response every answer with a
    status other than OK has refreshed=false.  In the revision of
    [auth_refresh.go] the failures up to the provider filter are answered
    with a bare error, which has no refreshed member; the later ones carry
    one result with refreshed=false. *)
Theorem force_refresh_failures_C3 (m : M) now body :
  let authID := TrimSpace (req_AuthID (requestOf body)) in
  let providerFilter := ToLower (TrimSpace (req_Provider (requestOf body))) in
  let flat := PostForceRefreshTokens (withManager m) now body in
  let listed := Listed.PostForceRefreshTokens (withManager m) now body in
  (body = BodyMalformed →
     flat = (withManager m, (StatusBadRequest, failure "" "" "invalid body")) ∧
     listed = (withManager m,
               (StatusBadRequest, Listed.ErrorOnly "invalid body"))) ∧
  (body ≠ BodyMalformed → authID = "" →
     flat = (withManager m,
             (StatusBadRequest,
              failure authID providerFilter "auth_id is required")) ∧
     listed = (withManager m,
               (StatusBadRequest, Listed.ErrorOnly "auth_id is required"))) ∧
  (body ≠ BodyMalformed → authID ≠ "" → GetByID m authID = None →
     flat = (withManager m,
             (StatusNotFound, failure authID providerFilter "auth not found")) ∧
     listed = (withManager m,
               (StatusNotFound, Listed.ErrorOnly "auth not found"))) ∧
  (∀ auth, body ≠ BodyMalformed → authID ≠ "" →
     GetByID m authID = Some auth →
     providerFilter ≠ "" →
     EqualFold providerFilter (coreauth.Provider auth) = false →
     flat = (withManager m,
             (StatusBadRequest,
              failure (ID auth) (coreauth.Provider auth) "provider mismatch")) ∧
     listed = (withManager m,
               (StatusBadRequest, Listed.ErrorOnly "provider mismatch"))) ∧
  (∀ auth, body ≠ BodyMalformed → authID ≠ "" →
     GetByID m authID = Some auth →
     providerFilter = "" ∨
       EqualFold providerFilter (coreauth.Provider auth) = true →
     Executor m (TrimSpace (coreauth.Provider auth)) = None →
     flat = (withManager m,
             (StatusBadRequest,
              failure (ID auth) (coreauth.Provider auth)
                      "executor not registered")) ∧
     listed = (withManager m,
               (StatusBadRequest,
                Listed.Results
                  [Listed.failure (ID auth) (coreauth.Provider auth)
                                  "executor not registered"]))) ∧
  (∀ auth exec refreshed errRefresh,
     reachesRefresh m body auth exec →
     Refresh exec (Clone auth) = (refreshed, Some errRefresh) →
     flat = (withManager m,
             (StatusBadRequest,
              failure (ID auth) (coreauth.Provider auth) errRefresh)) ∧
     listed = (withManager m,
               (StatusBadRequest,
                Listed.Results
                  [Listed.failure (ID auth) (coreauth.Provider auth)
                                  errRefresh]))) ∧
  (∀ h now' body',
     (PostForceRefreshTokens h now' body').2.1 ≠ StatusOK →
     Refreshed (PostForceRefreshTokens h now' body').2.2 = false) ∧
  (∀ h now' body',
     (Listed.PostForceRefreshTokens h now' body').2.1 ≠ StatusOK →
     Forall (λ flag, flag = false)
       (Listed.refreshedFlags
          (Listed.PostForceRefreshTokens h now' body').2.2)).
Proof.
  intros authID providerFilter flat listed.
  subst flat listed authID providerFilter. split_and!.
  - by intros ->.
  - intros Hbody Hid.
    rewrite PostForceRefreshTokens_bound, Listed_bound by done. cbv zeta.
    by rewrite !decide_True.
  - intros Hbody Hid Hget.
    rewrite PostForceRefreshTokens_bound, Listed_bound by done. cbv zeta.
    by rewrite !decide_False, Hget.
  - intros auth Hbody Hid Hget Hne Hfold.
    rewrite PostForceRefreshTokens_bound, Listed_bound by done. cbv zeta.
    by rewrite !decide_False, Hget, (filter_rejects _ _ Hne Hfold).
  - intros auth Hbody Hid Hget Hfilter Hexec.
    rewrite PostForceRefreshTokens_bound, Listed_bound by done. cbv zeta.
    by rewrite !decide_False, Hget, (filter_passes _ _ Hfilter), Hexec.
  - intros auth exec refreshed errRefresh
      (Hbody & Hid & Hget & Hfilter & Hexec) Href.
    rewrite PostForceRefreshTokens_bound, Listed_bound by done. cbv zeta.
    by rewrite !decide_False, Hget, (filter_passes _ _ Hfilter), Hexec, Href.
  - intros h now' body'. unfold PostForceRefreshTokens.
    repeat (case_match; simpl; try done).
  - intros h now' body'. unfold Listed.PostForceRefreshTokens.
    repeat (case_match; simpl; try done); intros _; by repeat constructor.
Qed.

(** C4 (as amended).  Let [Update], when it returns a record and no error,
    have stored the record it was given under that record's identifier and
    return it.  In the revision that checks what the executor hands back, a
    call answered with status OK leaves under the identifier a record that
    carries the Metadata [Refresh] returned, [LastRefreshedAt] and
    [UpdatedAt] equal to the time of the call, [NextRefreshAfter] zero and
    no [LastError]; the response has refreshed=true, no error, and that
    record as its payload.  In the revision of [auth_refresh.go], a call
    answered with status OK has handed [Update] a record with that
    Metadata and those stamps, [Update] has reported no error, and the
    response has refreshed=true with that record as payload under the
    stored identifier and provider; the record is the one stored under the
    identifier when the executor kept the identifier and [Update] returned
    a record. *)
Theorem force_refresh_success_C4 (m : M) now body :
  (∀ a m1 p, Update m a = (m1, (Some p, None)) →
             p = a ∧ GetByID m1 (ID a) = Some a) →
  (∀ h' resp,
     PostForceRefreshTokens (withManager m) now body = (h', (StatusOK, resp)) →
     ∃ m' auth exec refreshed stored,
       h' = withManager m' ∧
       reachesRefresh m body auth exec ∧
       Refresh exec (Clone auth) = (refreshed, None) ∧
       GetByID m' (ID auth) = Some stored ∧
       Metadata stored = Metadata (default (Clone auth) refreshed) ∧
       LastRefreshedAt stored = now ∧
       NextRefreshAfter stored = zero ∧
       LastError stored = None ∧
       UpdatedAt stored = now ∧
       resp = {| AuthID := ID auth; Provider := coreauth.Provider stored;
                 Refreshed := true; Error := ""; Auth := Some stored |}) ∧
  (∀ h' payload,
     Listed.PostForceRefreshTokens (withManager m) now body
       = (h', (StatusOK, payload)) →
     ∃ m' auth exec refreshed persisted r,
       h' = withManager m' ∧
       reachesRefresh m body auth exec ∧
       Refresh exec (Clone auth) = (refreshed, None) ∧
       Update m r = (m', (persisted, None)) ∧
       ID r = ID (default (Clone auth) refreshed) ∧
       Metadata r = Metadata (default (Clone auth) refreshed) ∧
       LastRefreshedAt r = now ∧
       NextRefreshAfter r = zero ∧
       LastError r = None ∧
       UpdatedAt r = now ∧
       payload = Listed.Results
                   [ {| Listed.ID := ID auth;
                        Listed.Provider := coreauth.Provider auth;
                        Listed.Refreshed := true; Listed.Error := "";
                        Listed.Auth := Some r |} ] ∧
       (is_Some persisted → ID r = ID auth →
          GetByID m' (ID auth) = Some r)).
Proof.
  intros Hstore. split.
  - intros h' resp Hrun.
    apply PostForceRefreshTokens_OK_inv in Hrun
      as (m' & auth & exec & refreshed & persisted
          & Hreach & Href & Hid & Hfold & Hupd & -> & ->).
    destruct (Hstore _ _ _ Hupd) as [-> Hget].
    destruct (recordToPersist_stamps now auth refreshed)
      as (Hpid & _ & Hmeta & Hlast & Hnext & Herr & Hupdated).
    cbv zeta in Hpid. rewrite Hpid, Hid in Hget.
    exists m', auth, exec, refreshed, (recordToPersist now auth refreshed).
    split_and!; try done. by rewrite Hpid, Hid.
  - intros h' payload Hrun.
    apply Listed_OK_inv in Hrun
      as (m' & auth & exec & refreshed & persisted
          & Hreach & Href & Hupd & -> & ->).
    destruct (recordToUpdate_stamps now auth refreshed)
      as (Hrid & _ & Hmeta & Hlast & Hnext & Herr & Hupdated).
    exists m', auth, exec, refreshed, persisted,
      (Listed.recordToUpdate now auth refreshed).
    split_and!; try done.
    intros [p ->] Hsame. destruct (Hstore _ _ _ Hupd) as [_ Hget].
    by rewrite Hsame in Hget.
Qed.


End generic.

(** *** On the registry, with the executors of the tests

    The requests and records of the tests are ASCII, where the interface
    of [GoStrings] fixes the three functions. *)
Import Registry Stubs.
#[local] Existing Instance ascii_strings.

Lemma update_stores (r : Registry) a r1 p :
  update r a = (r1, (Some p, None)) →
  p = a ∧ getByID r1 (ID a) = Some a.
Proof.
  unfold update, getByID. intros Hupd.
  destruct (auths r !! ID a) as [old|]; [|done].
  destruct (decide (coreauth.Provider old = coreauth.Provider a)); [|done].
  injection Hupd as <- <-. split; [done|]. simpl. apply lookup_insert_eq.
Qed.

Lemma update_errorless (r : Registry) a r1 p :
  update r a = (r1, (p, None)) → p = Some a.
Proof.
  unfold update. intros Hupd.
  destruct (auths r !! ID a) as [old|]; [|done].
  destruct (decide (coreauth.Provider old = coreauth.Provider a)); [|done].
  by injection Hupd as _ <-.
Qed.

Lemma update_other (r : Registry) a r1 res id :
  update r a = (r1, res) → id ≠ ID a → getByID r1 id = getByID r id.
Proof.
  unfold update, getByID. intros Hupd Hne.
  destruct (auths r !! ID a) as [old|]; [|by injection Hupd as <- _].
  destruct (decide (coreauth.Provider old = coreauth.Provider a));
    [|by injection Hupd as <- _].
  injection Hupd as <- _. simpl. by apply lookup_insert_ne.
Qed.

Lemma reachesRefresh_codex (e : ProviderExecutor) :
  Identifier e = "codex" →
  reachesRefresh (managerWith (Some e)) forceCodex baseAuth e.
Proof.
  intros Hid. unfold reachesRefresh. cbv zeta.
  repeat match goal with |- _ ∧ _ => split end.
  - discriminate.
  - vm_compute. discriminate.
  - vm_compute. reflexivity.
  - left. reflexivity.
  - unfold managerWith, RegisterExecutor. simpl. unfold executorFor. simpl.
    rewrite Hid. apply lookup_insert_eq.
Defined.

(** The same on a manager that holds the given records, the first of them
    under the identifier of the request. *)
Lemma reachesRefresh_first (a : coreauth.Auth) (rest : list coreauth.Auth)
    (e : ProviderExecutor) :
  getByID (managerOf (a :: rest) (Some e)) "codex-auth" = Some a →
  coreauth.Provider a = "codex" →
  Identifier e = "codex" →
  reachesRefresh (managerOf (a :: rest) (Some e)) forceCodex a e.
Proof.
  intros Hget Hprov Hid. unfold reachesRefresh. cbv zeta.
  repeat match goal with |- _ ∧ _ => split end.
  - discriminate.
  - vm_compute. discriminate.
  - exact Hget.
  - left. reflexivity.
  - rewrite Hprov. unfold managerOf, RegisterExecutor. simpl.
    unfold executorFor. simpl. rewrite Hid. apply lookup_insert_eq.
Defined.

Lemma executor_mismatch_C1_witness :
  (* a foreign identifier, the revision with the check *)
  PostForceRefreshTokens (withManager (managerWith (Some idMismatch)))
      someTime forceCodex
    = (withManager (managerWith (Some idMismatch)),
       (StatusInternalServerError,
        failure "codex-auth" "codex" "executor returned mismatched auth id"))
  ∧
  (* a foreign provider *)
  PostForceRefreshTokens (withManager (managerWith (Some providerMismatch)))
      someTime forceCodex
    = (withManager (managerWith (Some providerMismatch)),
       (StatusInternalServerError,
        failure "codex-auth" "codex" "executor returned mismatched provider"))
  ∧
  (* the stored provider in capitals: handed to [Update] as "CODEX", which
     the registry turns down *)
  coreauth.Provider
    (recordToPersist someTime baseAuth (Some (setProvider "CODEX" baseAuth)))
    = "CODEX"
  ∧
  PostForceRefreshTokens (withManager (managerWith (Some caseMismatch)))
      someTime forceCodex
    = (withManager (managerWith (Some caseMismatch)),
       (StatusInternalServerError,
        failure "codex-auth" "codex" "auth provider changed"))
  ∧
  (* a foreign identifier, the revision without the check: handed to
     [Update] as it comes *)
  ID (Listed.recordToUpdate someTime baseAuth (Some (setID "other-id" baseAuth)))
    = "other-id".
Proof.
  split_and!.
  - apply (proj1 (executor_mismatch_C1 (managerWith (Some idMismatch))
                    someTime forceCodex baseAuth idMismatch
                    (Some (setID "other-id" baseAuth))
                    (reachesRefresh_codex idMismatch eq_refl) eq_refl)).
    vm_compute. discriminate.
  - destruct (executor_mismatch_C1 (managerWith (Some providerMismatch))
                someTime forceCodex baseAuth providerMismatch
                (Some (setProvider "other" baseAuth))
                (reachesRefresh_codex providerMismatch eq_refl) eq_refl)
      as (_ & Hprov & _).
    apply Hprov; [reflexivity|vm_compute; reflexivity].
  - destruct (executor_mismatch_C1 (managerWith (Some caseMismatch))
                someTime forceCodex baseAuth caseMismatch
                (Some (setProvider "CODEX" baseAuth))
                (reachesRefresh_codex caseMismatch eq_refl) eq_refl)
      as (_ & _ & _ & Hfold & _).
    destruct Hfold as (Hprov & _); [reflexivity..|].
    exact Hprov.
  - destruct (executor_mismatch_C1 (managerWith (Some caseMismatch))
                someTime forceCodex baseAuth caseMismatch
                (Some (setProvider "CODEX" baseAuth))
                (reachesRefresh_codex caseMismatch eq_refl) eq_refl)
      as (_ & _ & Hfold & _).
    destruct Hfold as (_ & _ & Hflat); [reflexivity|vm_compute; reflexivity|].
    rewrite Hflat. vm_compute. reflexivity.
  - destruct (executor_mismatch_C1 (managerWith (Some idMismatch))
                someTime forceCodex baseAuth idMismatch
                (Some (setID "other-id" baseAuth))
                (reachesRefresh_codex idMismatch eq_refl) eq_refl)
      as (_ & _ & _ & _ & Hid & _).
    exact Hid.
Defined.

(** C1 as stated fails twice.  In the revision with the check the executor
    hands back the stored record with its provider in capitals, which is
    not the stored provider, and the answer carries neither of the two
    messages.  In the revision of [auth_refresh.go], on a manager that
    holds a second record, the executor hands back that record's
    identifier: the answer is status OK and the second record has been
    overwritten. *)
Lemma executor_mismatch_C1_counterexample :
  (let m := managerWith (Some caseMismatch) in
   let out := PostForceRefreshTokens (withManager m) someTime forceCodex in
   reachesRefresh m forceCodex baseAuth caseMismatch ∧
   (∃ returned,
      Refresh caseMismatch (Clone baseAuth) = (Some returned, None) ∧
      ID returned = ID baseAuth ∧
      coreauth.Provider returned ≠ "" ∧
      coreauth.Provider returned ≠ coreauth.Provider baseAuth) ∧
   Error out.2.2 ≠ "executor returned mismatched auth id" ∧
   Error out.2.2 ≠ "executor returned mismatched provider") ∧
  (let m := managerOf [baseAuth; otherAuth] (Some idMismatch) in
   let out := Listed.PostForceRefreshTokens (withManager m) someTime forceCodex in
   reachesRefresh m forceCodex baseAuth idMismatch ∧
   (∃ returned,
      Refresh idMismatch (Clone baseAuth) = (Some returned, None) ∧
      ID returned ≠ "" ∧
      ID returned ≠ ID baseAuth) ∧
   out.2.1 = StatusOK ∧
   out.1 ≠ withManager m ∧
   ∃ m', out.1 = withManager m' ∧
         getByID m "other-id" = Some otherAuth ∧
         getByID m' "other-id" ≠ Some otherAuth).
Proof.
  split.
  - intros m out. split; [apply reachesRefresh_codex; reflexivity|]. split.
    + exists (setProvider "CODEX" baseAuth).
      repeat split; try reflexivity; vm_compute; discriminate.
    + split; vm_compute; discriminate.
  - intros m out. split_and!.
    + apply reachesRefresh_first; reflexivity.
    + exists (setID "other-id" baseAuth).
      repeat split; try reflexivity; vm_compute; discriminate.
    + vm_compute. reflexivity.
    + vm_compute. discriminate.
    + eexists. split_and!; [reflexivity|vm_compute; reflexivity|].
      vm_compute. discriminate.
Qed.

Lemma persistence_failure_C2_witness :
  PostForceRefreshTokens (withManager (managerWith (Some caseMismatch)))
      someTime forceCodex
    = (withManager (managerWith (Some caseMismatch)),
       (StatusInternalServerError,
        {| AuthID := "codex-auth"; Provider := "codex"; Refreshed := false;
           Error := "auth provider changed"; Auth := None |}))
  ∧
  Listed.PostForceRefreshTokens (withManager (managerWith (Some caseMismatch)))
      someTime forceCodex
    = (withManager (managerWith (Some caseMismatch)),
       (StatusBadRequest,
        Listed.Results
          [ {| Listed.ID := "codex-auth"; Listed.Provider := "codex";
               Listed.Refreshed := false;
               Listed.Error := "auth provider changed";
               Listed.Auth := None |} ])).
Proof.
  destruct (persistence_failure_C2 (managerWith (Some caseMismatch))
              someTime forceCodex baseAuth caseMismatch
              (Some (setProvider "CODEX" baseAuth))
              (managerWith (Some caseMismatch)) None "auth provider changed"
              (reachesRefresh_codex caseMismatch eq_refl) eq_refl)
    as [Hflat Hlisted].
  split.
  - apply Hflat; [reflexivity|vm_compute; reflexivity|vm_compute; reflexivity].
  - apply Hlisted. vm_compute. reflexivity.
Defined.

(** C2 as stated fails in the revision of [auth_refresh.go]: [Refresh]
    succeeds, [Update] fails, and the answer is bad-request. *)
Lemma persistence_failure_C2_counterexample :
  let m := managerWith (Some caseMismatch) in
  let out := Listed.PostForceRefreshTokens (withManager m) someTime forceCodex in
  reachesRefresh m forceCodex baseAuth caseMismatch ∧
  Refresh caseMismatch (Clone baseAuth)
    = (Some (setProvider "CODEX" baseAuth), None) ∧
  (Update m (Listed.recordToUpdate someTime baseAuth
               (Some (setProvider "CODEX" baseAuth)))).2
    = (None, Some "auth provider changed") ∧
  out.2.1 = StatusBadRequest ∧
  out.2.1 ≠ StatusInternalServerError.
Proof.
  intros m out. split_and!.
  - apply reachesRefresh_codex. reflexivity.
  - reflexivity.
  - vm_compute. reflexivity.
  - vm_compute. reflexivity.
  - vm_compute. discriminate.
Qed.

Lemma force_refresh_failures_C3_witness :
  (* a body that is not JSON *)
  (PostForceRefreshTokens (withManager NewManager) someTime BodyMalformed
     = (withManager NewManager,
        (StatusBadRequest, failure "" "" "invalid body")) ∧
   Listed.PostForceRefreshTokens (withManager NewManager) someTime BodyMalformed
     = (withManager NewManager,
        (StatusBadRequest, Listed.ErrorOnly "invalid body"))) ∧
  (* {} : auth_id is required *)
  (PostForceRefreshTokens (withManager NewManager) someTime (BodyJSON zeroRequest)
     = (withManager NewManager,
        (StatusBadRequest, failure "" "" "auth_id is required")) ∧
   Listed.PostForceRefreshTokens (withManager NewManager) someTime
       (BodyJSON zeroRequest)
     = (withManager NewManager,
        (StatusBadRequest, Listed.ErrorOnly "auth_id is required"))) ∧
  (* {"auth_id":"missing"} : auth not found *)
  (PostForceRefreshTokens (withManager NewManager) someTime
       (BodyJSON {| req_AuthID := "missing"; req_Provider := "" |})
     = (withManager NewManager,
        (StatusNotFound, failure "missing" "" "auth not found")) ∧
   Listed.PostForceRefreshTokens (withManager NewManager) someTime
       (BodyJSON {| req_AuthID := "missing"; req_Provider := "" |})
     = (withManager NewManager,
        (StatusNotFound, Listed.ErrorOnly "auth not found"))) ∧
  (* {"auth_id":"codex-auth","provider":"other"} : provider mismatch *)
  (PostForceRefreshTokens (withManager (managerWith (Some refreshOnly))) someTime
       (BodyJSON {| req_AuthID := "codex-auth"; req_Provider := "other" |})
     = (withManager (managerWith (Some refreshOnly)),
        (StatusBadRequest, failure "codex-auth" "codex" "provider mismatch")) ∧
   Listed.PostForceRefreshTokens (withManager (managerWith (Some refreshOnly)))
       someTime
       (BodyJSON {| req_AuthID := "codex-auth"; req_Provider := "other" |})
     = (withManager (managerWith (Some refreshOnly)),
        (StatusBadRequest, Listed.ErrorOnly "provider mismatch"))) ∧
  (* no executor registered *)
  (PostForceRefreshTokens (withManager (managerWith None)) someTime forceCodex
     = (withManager (managerWith None),
        (StatusBadRequest,
         failure "codex-auth" "codex" "executor not registered")) ∧
   Listed.PostForceRefreshTokens (withManager (managerWith None)) someTime
       forceCodex
     = (withManager (managerWith None),
        (StatusBadRequest,
         Listed.Results
           [Listed.failure "codex-auth" "codex" "executor not registered"]))) ∧
  (* the executor fails *)
  (PostForceRefreshTokens (withManager (managerWith (Some refreshFailure)))
       someTime forceCodex
     = (withManager (managerWith (Some refreshFailure)),
        (StatusBadRequest, failure "codex-auth" "codex" "refresh failed")) ∧
   Listed.PostForceRefreshTokens (withManager (managerWith (Some refreshFailure)))
       someTime forceCodex
     = (withManager (managerWith (Some refreshFailure)),
        (StatusBadRequest,
         Listed.Results
           [Listed.failure "codex-auth" "codex" "refresh failed"]))).
Proof.
  split; [|split; [|split; [|split; [|split]]]].
  - destruct (force_refresh_failures_C3 NewManager someTime BodyMalformed)
      as (H0 & _).
    apply H0. reflexivity.
  - destruct (force_refresh_failures_C3 NewManager someTime
                (BodyJSON zeroRequest)) as (_ & H1 & _).
    apply H1; [discriminate|reflexivity].
  - destruct (force_refresh_failures_C3 NewManager someTime
                (BodyJSON {| req_AuthID := "missing"; req_Provider := "" |}))
      as (_ & _ & H2 & _).
    apply H2; [discriminate|vm_compute; discriminate|vm_compute; reflexivity].
  - destruct (force_refresh_failures_C3 (managerWith (Some refreshOnly)) someTime
                (BodyJSON {| req_AuthID := "codex-auth"; req_Provider := "other" |}))
      as (_ & _ & _ & H3 & _).
    apply (H3 baseAuth);
      [discriminate|vm_compute; discriminate|vm_compute; reflexivity
      |vm_compute; discriminate|vm_compute; reflexivity].
  - destruct (force_refresh_failures_C3 (managerWith None) someTime forceCodex)
      as (_ & _ & _ & _ & H4 & _).
    apply (H4 baseAuth);
      [discriminate|vm_compute; discriminate|vm_compute; reflexivity
      |left; reflexivity|vm_compute; reflexivity].
  - destruct (force_refresh_failures_C3 (managerWith (Some refreshFailure))
                someTime forceCodex) as (_ & _ & _ & _ & _ & H5 & _).
    apply (H5 baseAuth refreshFailure None "refresh failed"
              (reachesRefresh_codex refreshFailure eq_refl) eq_refl).
Defined.

(** C3 as stated fails in the revision of [auth_refresh.go]: the answer to
    a request without identifier is [{"error": "auth_id is required"}], a
    failure that carries no refreshed member. *)
Lemma force_refresh_failures_C3_counterexample :
  let out := Listed.PostForceRefreshTokens (withManager NewManager) someTime
               (BodyJSON zeroRequest) in
  out.2.1 = StatusBadRequest ∧
  out.2.2 = Listed.ErrorOnly "auth_id is required" ∧
  Listed.refreshedFlags out.2.2 = [] ∧
  false ∉ Listed.refreshedFlags out.2.2.
Proof.
  intros out. split_and!; try (vm_compute; reflexivity).
  vm_compute. apply not_elem_of_nil.
Qed.

Lemma force_refresh_success_C4_witness :
  let m := managerOf [staleAuth] (Some refreshOnly) in
  let flat := PostForceRefreshTokens (withManager m) someTime forceCodex in
  let listed := Listed.PostForceRefreshTokens (withManager m) someTime forceCodex in
  (flat.2.1 = StatusOK ∧
   ∃ m' stored,
     flat.1 = withManager m' ∧
     GetByID m' "codex-auth" = Some stored ∧
     Metadata stored !! "refreshed" = Some (MBool true) ∧
     LastRefreshedAt stored = someTime ∧
     NextRefreshAfter stored = zero ∧
     NextRefreshAfter staleAuth ≠ zero ∧
     LastError stored = None ∧
     LastError staleAuth ≠ None ∧
     UpdatedAt stored = someTime ∧
     Auth flat.2.2 = Some stored) ∧
  (listed.2.1 = StatusOK ∧
   ∃ m' r,
     listed.1 = withManager m' ∧
     GetByID m' "codex-auth" = Some r ∧
     LastRefreshedAt r = someTime ∧
     NextRefreshAfter r = zero ∧
     LastError r = None ∧
     UpdatedAt r = someTime).
Proof.
  intros m flat listed.
  destruct (force_refresh_success_C4 m someTime forceCodex) as [Hflat Hlisted].
  { intros a m1 p. apply update_stores. }
  split.
  - split; [vm_compute; reflexivity|].
    destruct (Hflat flat.1 flat.2.2) as
      (m' & auth & exec & refreshed & stored & Hh & Hreach & Href & Hget
       & Hmeta & Hlast & Hnext & Herr & Hupdated & Hresp).
    { vm_compute. reflexivity. }
    assert (Hauth : auth = staleAuth).
    { destruct Hreach as (_ & _ & Hlook & _).
      vm_compute in Hlook. by injection Hlook as <-. }
    subst auth.
    assert (Hexec : exec = refreshOnly).
    { destruct Hreach as (_ & _ & _ & _ & Hlook).
      vm_compute in Hlook. by injection Hlook as <-. }
    subst exec. vm_compute in Href. injection Href as <-.
    exists m', stored. split_and!; try done.
    + rewrite Hmeta. vm_compute. reflexivity.
    + by rewrite Hresp.
  - split; [vm_compute; reflexivity|].
    destruct (Hlisted listed.1 listed.2.2) as
      (m' & auth & exec & refreshed & persisted & r & Hh & Hreach & Href & Hupd
       & Hrid & Hmeta & Hlast & Hnext & Herr & Hupdated & Hpayload & Hstored).
    { vm_compute. reflexivity. }
    assert (Hauth : auth = staleAuth).
    { destruct Hreach as (_ & _ & Hlook & _).
      vm_compute in Hlook. by injection Hlook as <-. }
    subst auth.
    assert (Hexec : exec = refreshOnly).
    { destruct Hreach as (_ & _ & _ & _ & Hlook).
      vm_compute in Hlook. by injection Hlook as <-. }
    subst exec. vm_compute in Href. injection Href as <-.
    exists m', r. split_and!; try done.
    apply Hstored; [|by rewrite Hrid].
    apply update_errorless in Hupd as ->. by eexists.
Defined.

(** C4 as stated fails in the revision of [auth_refresh.go]: on a manager
    that holds a second record, the executor hands back that record's
    identifier; the call is answered status OK with refreshed=true, and
    the record stored under the identifier of the request is as it was, not
    refreshed. *)
Lemma force_refresh_success_C4_counterexample :
  let m := managerOf [baseAuth; otherAuth] (Some idMismatch) in
  let out := Listed.PostForceRefreshTokens (withManager m) someTime forceCodex in
  out.2.1 = StatusOK ∧
  Listed.refreshedFlags out.2.2 = [true] ∧
  ∃ m', out.1 = withManager m' ∧
        getByID m' "codex-auth" = Some baseAuth ∧
        LastRefreshedAt baseAuth ≠ someTime ∧
        UpdatedAt baseAuth ≠ someTime.
Proof.
  intros m out. split_and!; try (vm_compute; reflexivity).
  eexists. split_and!; [reflexivity|vm_compute; reflexivity|..];
    vm_compute; discriminate.
Qed.


End ForceRefreshFacts.

(** *** Distinct draws give distinct identities *)
Module IdentityInjective.
Import Identity IdentityFacts.

Lemma hexDigit_inj (a b : N) :
  hexDigit a = hexDigit b → (a mod 16 = b mod 16)%N.
Proof.
  unfold hexDigit. intros Heq.
  pose proof (N.mod_upper_bound a 16) as Ha.
  pose proof (N.mod_upper_bound b 16) as Hb.
  assert (Hnat : N.to_nat (a mod 16) = N.to_nat (b mod 16)); [|lia].
  assert (Hla : N.to_nat (a mod 16) < 16) by lia.
  assert (Hlb : N.to_nat (b mod 16) < 16) by lia.
  revert Heq Hla Hlb.
  generalize (N.to_nat (a mod 16)) (N.to_nat (b mod 16)). intros i j Heq Hi Hj.
  do 16 (destruct i as [|i]; [do 16 (destruct j as [|j]; [done|]); lia|]). lia.
Qed.

Lemma hexEncode_inj (bs cs : list N) :
  Forall (λ b, (b < 256)%N) bs → Forall (λ b, (b < 256)%N) cs →
  hexEncode bs = hexEncode cs → bs = cs.
Proof.
  intros Hbs. revert cs.
  induction Hbs as [|b bs Hb _ IH]; intros cs Hcs Heq; destruct Hcs as [|c cs Hc Hcs];
    simpl in Heq; try done.
  injection Heq as Hhi Hlo Hrest.
  apply hexDigit_inj in Hhi, Hlo.
  f_equal; [|by apply IH].
  assert ((b / 16) mod 16 = b / 16)%N as Eb by (apply N.mod_small, N.Div0.div_lt_upper_bound; lia).
  assert ((c / 16) mod 16 = c / 16)%N as Ec by (apply N.mod_small, N.Div0.div_lt_upper_bound; lia).
  rewrite Eb, Ec in Hhi.
  by rewrite (N.div_mod' b 16), (N.div_mod' c 16), Hhi, Hlo.
Qed.

Lemma length_hexEncode bs : String.length (hexEncode bs) = 2 * length bs.
Proof. apply LowerHex_length, LowerHex_hexEncode. Qed.

Lemma string_app_inj_length (a b c d : string) :
  String.length a = String.length b → a +:+ c = b +:+ d → a = b ∧ c = d.
Proof.
  revert b. induction a as [|x a IH]; intros [|y b] Hlen Heq; try done.
  rewrite !string_app_cons in Heq. injection Heq as -> Heq.
  destruct (IH b) as [-> ->]; [by injection Hlen|done|done].
Qed.

Lemma Forall_randBytes rnd off len :
  Forall (λ b, (b < 256)%N) (randBytes rnd off len).
Proof.
  unfold randBytes. apply Forall_forall. intros b Hb.
  apply list_elem_of_In, in_map_iff in Hb as (i & <- & _).
  by apply N.mod_upper_bound.
Qed.

Lemma randBytes_pointwise r1 r2 off len :
  randBytes r1 off len = randBytes r2 off len →
  ∀ i, off ≤ i < off + len → (r1 i mod 256 = r2 i mod 256)%N.
Proof.
  unfold randBytes. revert off. induction len as [|len IH]; intros off Heq i Hi.
  - lia.
  - simpl in Heq. injection Heq as Hhd Htl.
    destruct (decide (i = off)) as [->|]; [done|].
    apply (IH (S off)); [done|lia].
Qed.

Lemma take_drop_randBytes rnd off len (j k : nat) :
  (j + k ≤ len)%nat →
  take k (drop j (randBytes rnd off len)) = randBytes rnd (off + j) k.
Proof.
  intros Hle. unfold randBytes.
  rewrite skipn_map, firstn_map, drop_seq, take_seq.
  do 2 f_equal. lia.
Qed.

Lemma take_randBytes rnd off len (k : nat) :
  (k ≤ len)%nat → take k (randBytes rnd off len) = randBytes rnd off k.
Proof.
  intros Hle. pose proof (take_drop_randBytes rnd off len 0 k Hle) as Heq.
  by rewrite Nat.add_0_r in Heq.
Qed.

(** The identity determines the forty-eight bytes it was made from. *)
Lemma generateFakeUserID_inj r1 r2 :
  generateFakeUserID r1 = generateFakeUserID r2 →
  ∀ i, i < 48 → (r1 i mod 256 = r2 i mod 256)%N.
Proof.
  unfold generateFakeUserID, uuidString, userPrefix, sessionSeparator.
  rewrite !take_randBytes, !take_drop_randBytes by lia. simpl Nat.add.
  intros Heq.
  apply (inj (String.app _)) in Heq.
  repeat match type of Heq with
  | hexEncode ?x +:+ _ = hexEncode ?y +:+ _ =>
      let H := fresh "Hpiece" in
      apply string_app_inj_length in Heq as [H Heq];
        [|by rewrite !length_hexEncode, !length_randBytes];
      apply hexEncode_inj in H; [|apply Forall_randBytes..]
  | _ +:+ _ = _ +:+ _ => apply (inj (String.app _)) in Heq
  end.
  apply hexEncode_inj in Heq; [|apply Forall_randBytes..].
  intros i Hi.
  destruct (decide (i < 32));
    [apply (randBytes_pointwise r1 r2 0 32); [done|lia]|].
  destruct (decide (i < 36));
    [apply (randBytes_pointwise r1 r2 32 4); [done|lia]|].
  destruct (decide (i < 38));
    [apply (randBytes_pointwise r1 r2 36 2); [done|lia]|].
  destruct (decide (i < 40));
    [apply (randBytes_pointwise r1 r2 38 2); [done|lia]|].
  destruct (decide (i < 42));
    [apply (randBytes_pointwise r1 r2 40 2); [done|lia]|].
  apply (randBytes_pointwise r1 r2 42 6); [done|lia].
Qed.

Lemma generateFakeUserID_fresh r1 r2 i :
  i < 48 → (r1 i mod 256 ≠ r2 i mod 256)%N →
  generateFakeUserID r1 ≠ generateFakeUserID r2.
Proof. intros Hi Hne Heq. by apply Hne, generateFakeUserID_inj. Qed.

End IdentityInjective.

(** ** The identity format: C7 *)
Module IdentityClaims.
Import Identity IdentityFacts.

(** C7.  Every string the generator produces has the form [user_], sixty-four
    lowercase hex digits, [_account__session_], and a session segment of
    8-4-4-4-12 lowercase hex digits; the validator accepts a string exactly
    when it has that form. *)
Theorem identity_format_C7 :
  (∀ rnd, Conforming (generateFakeUserID rnd)) ∧
  (∀ rnd, isValidUserID (generateFakeUserID rnd) = true) ∧
  (∀ s, isValidUserID s = true ↔ Conforming s).
Proof.
  split; [apply generateFakeUserID_Conforming|].
  split; [apply generateFakeUserID_valid|apply isValidUserID_Conforming].
Qed.

Example isValidUserID_sample :
  isValidUserID
    "user_00000000000000000000000000000000000000000000000000000000000000ff_account__session_01234567-89ab-cdef-0123-456789abcdef"
  = true.
Proof. vm_compute. reflexivity. Qed.

Example isValidUserID_uppercase :
  isValidUserID
    "user_00000000000000000000000000000000000000000000000000000000000000FF_account__session_01234567-89ab-cdef-0123-456789abcdef"
  = false.
Proof. vm_compute. reflexivity. Qed.

Example isValidUserID_trailing :
  isValidUserID (generateFakeUserID (λ _, 7%N) +:+ "0") = false.
Proof. vm_compute. reflexivity. Qed.

End IdentityClaims.

(** ** The identity cache: C5, C8, C10 *)
Module CacheFacts.
Import GoTime Identity IdentityFacts IdentityInjective UserIDCache Samples.

Lemma isValidUserID_empty : isValidUserID "" = false.
Proof. reflexivity. Qed.

Lemma userIDTTL_one_hour : userIDTTL = (3600 * 1000000000)%Z.
Proof. reflexivity. Qed.

(** The purge drops exactly the entries that expired before [now]. *)
Lemma purgeExpiredUserIDs_lookup now st k e :
  userIDCache (purgeExpiredUserIDs now st) !! k = Some e ↔
  userIDCache st !! k = Some e ∧ ¬ (expire e < now)%Z.
Proof.
  unfold purgeExpiredUserIDs, expired, Before. simpl.
  rewrite map_lookup_filter_Some. simpl.
  rewrite Z.ltb_ge. split; intros [? ?]; split; try done; lia.
Qed.

Section pair.
Import ByProviderModel.
Variables provider model : string.
Hypothesis provider_nonempty : provider ≠ "".
Hypothesis model_nonempty : model ≠ "".

Let key := cacheKey provider model.

Lemma not_bypassed : ¬ (provider = "" ∨ model = "").
Proof using provider_nonempty model_nonempty. intros [?|?]; done. Qed.

(** A hit: the entry is live and well formed. *)
Lemma cachedUserID_hit st now rnd e :
  userIDCache st !! key = Some e →
  (now < expire e)%Z →
  isValidUserID (value e) = true →
  cachedUserID st now rnd provider model
    = ({| userIDCache := userIDCache st; cleanupStarted := true |}, value e).
Proof using provider_nonempty model_nonempty.
  intros Hget Hlive Hvalid. unfold cachedUserID.
  rewrite decide_False by apply not_bypassed. cbv zeta. fold key. rewrite Hget.
  unfold After. rewrite (proj2 (Z.ltb_lt _ _) Hlive), Hvalid.
  rewrite bool_decide_eq_false_2; [done|].
  intros Hempty. by rewrite Hempty in Hvalid.
Qed.

(** A miss: no entry, or one that ran out or is malformed. *)
Lemma cachedUserID_miss st now rnd :
  (∀ e, userIDCache st !! key = Some e →
        (expire e ≤ now)%Z ∨ isValidUserID (value e) = false) →
  cachedUserID st now rnd provider model
    = ({| userIDCache :=
            <[key := {| value := generateFakeUserID rnd;
                        expire := Add now userIDTTL |}]> (userIDCache st);
          cleanupStarted := true |}, generateFakeUserID rnd).
Proof using provider_nonempty model_nonempty.
  intros Hstale. unfold cachedUserID.
  rewrite decide_False by apply not_bypassed. cbv zeta. fold key.
  destruct (userIDCache st !! key) as [e|] eqn:Hget; [|done].
  destruct (Hstale e eq_refl) as [Hexp|Hbad].
  - unfold After. by rewrite (proj2 (Z.ltb_ge _ _) Hexp).
  - rewrite Hbad. by rewrite andb_false_r.
Qed.

(** The background purge does not disturb a live entry: a call after a
    purge still finds it. *)
Lemma cachedUserID_hit_after_purge st purgedAt now rnd e :
  userIDCache st !! key = Some e →
  (purgedAt ≤ expire e)%Z →
  (now < expire e)%Z →
  isValidUserID (value e) = true →
  (cachedUserID (purgeExpiredUserIDs purgedAt st) now rnd provider model).2
    = value e.
Proof using provider_nonempty model_nonempty.
  intros Hget Hkept Hlive Hvalid.
  rewrite (cachedUserID_hit _ now rnd e); [done| |done|done].
  apply purgeExpiredUserIDs_lookup. split; [done|lia].
Qed.

End pair.

Import ByProviderModel.

(** C5.  For a provider and a model that are not empty:
    - whatever a call returns is stored under the key, is well formed, and
      is returned again, the cache staying as it is, by every later call
      made before the stored entry runs out; a freshly minted entry runs
      out one TTL after the call that minted it;
    - when there is no entry, or the entry has run out, or its value is
      malformed, the call mints a value, stores it with
      [expire = now + TTL] and returns it; the value is well formed, differs
      from a malformed stored value, and differs from a stored value minted
      from another draw of the random source. *)
Theorem cached_identity_reuse_C5 (provider model : string) :
  provider ≠ "" → model ≠ "" →
  let key := cacheKey provider model in
  (∀ st t0 r0,
     let out := cachedUserID st t0 r0 provider model in
     ∃ e, userIDCache out.1 !! key = Some e ∧
          value e = out.2 ∧
          isValidUserID out.2 = true ∧
          (userIDCache st !! key = Some e ∨ expire e = Add t0 userIDTTL) ∧
          ∀ t1 r1, (t1 < expire e)%Z →
                   cachedUserID out.1 t1 r1 provider model = out) ∧
  (∀ st now rnd,
     (∀ e, userIDCache st !! key = Some e →
           (expire e ≤ now)%Z ∨ isValidUserID (value e) = false) →
     cachedUserID st now rnd provider model
       = ({| userIDCache :=
               <[key := {| value := generateFakeUserID rnd;
                           expire := Add now userIDTTL |}]> (userIDCache st);
             cleanupStarted := true |}, generateFakeUserID rnd) ∧
     isValidUserID (generateFakeUserID rnd) = true ∧
     (∀ e, userIDCache st !! key = Some e →
           isValidUserID (value e) = false →
           generateFakeUserID rnd ≠ value e) ∧
     (∀ e r0 i, userIDCache st !! key = Some e →
                value e = generateFakeUserID r0 →
                i < 48 → (r0 i mod 256 ≠ rnd i mod 256)%N →
                generateFakeUserID rnd ≠ value e)).
Proof.
  intros Hp Hm key. split.
  - intros st t0 r0 out.
    assert (Hcases :
      (∃ e, userIDCache st !! key = Some e ∧ (t0 < expire e)%Z ∧
            isValidUserID (value e) = true) ∨
      (∀ e, userIDCache st !! key = Some e →
            (expire e ≤ t0)%Z ∨ isValidUserID (value e) = false)).
    { destruct (userIDCache st !! key) as [e|]; [|right; done].
      destruct (decide (t0 < expire e)%Z); [|right; intros ? [= <-]; left; lia].
      destruct (isValidUserID (value e)) eqn:Hv; [|right; intros ? [= <-]; by right].
      left. by exists e. }
    destruct Hcases as [(e & Hget & Hlive & Hvalid)|Hstale].
    + subst out. rewrite (cachedUserID_hit _ _ Hp Hm _ _ _ _ Hget Hlive Hvalid).
      exists e. simpl. repeat split; try done; [by left|].
      intros t1 r1 Ht1.
      by rewrite (cachedUserID_hit _ _ Hp Hm
                    {| userIDCache := userIDCache st; cleanupStarted := true |}
                    t1 r1 e Hget Ht1 Hvalid).
    + subst out. rewrite (cachedUserID_miss _ _ Hp Hm _ _ _ Hstale).
      eexists. simpl. split; [apply lookup_insert_eq|]. simpl.
      repeat split; [apply generateFakeUserID_valid|by right|].
      intros t1 r1 Ht1.
      rewrite (cachedUserID_hit _ _ Hp Hm _ t1 r1
                 {| value := generateFakeUserID r0; expire := Add t0 userIDTTL |});
        simpl; [|apply lookup_insert_eq|done|apply generateFakeUserID_valid].
      done.
  - intros st now rnd Hstale.
    split; [by apply cachedUserID_miss|].
    split; [apply generateFakeUserID_valid|]. split.
    + intros e _ Hbad Heq. rewrite <- Heq, generateFakeUserID_valid in Hbad. done.
    + intros e r0 i _ -> Hi Hne. by apply (generateFakeUserID_fresh _ _ i); [|congruence].
Qed.

Lemma cached_identity_reuse_C5_witness :
  (* a first call on the empty cache, then a second within the hour *)
  (let out :=
     cachedUserID UserIDCache.empty 0%Z zeroTape "claude" "claude-3-5-sonnet" in
   cachedUserID out.1 (30 * Minute)%Z countTape "claude" "claude-3-5-sonnet" = out) ∧
  (* an entry that ran out a minute ago is replaced by another identity *)
  (let st := holding sonnetKey (- Minute)%Z in
   let out := cachedUserID st 0%Z countTape "claude" "claude-3-5-sonnet" in
   out.2 = generateFakeUserID countTape ∧
   out.2 ≠ generateFakeUserID zeroTape ∧
   isValidUserID out.2 = true ∧
   userIDCache out.1 !! sonnetKey
     = Some {| value := out.2; expire := Add 0%Z userIDTTL |}).
Proof.
  pose proof (cached_identity_reuse_C5 "claude" "claude-3-5-sonnet"
                ltac:(discriminate) ltac:(discriminate)) as [Hreuse Hmint].
  split.
  - destruct (Hreuse UserIDCache.empty 0%Z zeroTape) as (e & Hget & _ & _ & [Hold|Hexp] & Hagain).
    + discriminate Hold.
    + apply Hagain. rewrite Hexp. vm_compute. reflexivity.
  - destruct (Hmint (holding sonnetKey (- Minute)%Z) 0%Z countTape)
      as (Hrun & Hvalid & _ & Hfresh).
    { intros e He. unfold holding, sonnetKey in He. cbn [userIDCache] in He.
      apply lookup_singleton_Some in He as [_ <-]. left.
      vm_compute. discriminate. }
    cbv zeta. rewrite Hrun. cbn [fst snd userIDCache].
    split; [reflexivity|]. split; [|split; [exact Hvalid|apply lookup_insert_eq]].
    apply (Hfresh {| value := generateFakeUserID zeroTape;
                     expire := (- Minute)%Z |} zeroTape 1).
    + apply lookup_singleton_eq.
    + reflexivity.
    + lia.
    + vm_compute. discriminate.
Defined.

(** C8.  Keyed by the API key, every call with a key that is not empty
    leaves the entry with [expire = now + TTL], also when it returns the
    value the entry already held.  Keyed by provider and model, a call that
    finds a live, well-formed entry returns its value and leaves the map as
    it is. *)
Theorem ttl_renewal_C8 :
  (∀ st now rnd apiKey,
     apiKey ≠ "" →
     let out := ByAPIKey.cachedUserID st now rnd apiKey in
     userIDCache out.1 !! apiKey
       = Some {| value := out.2; expire := Add now userIDTTL |}) ∧
  (∀ st now rnd apiKey e,
     apiKey ≠ "" →
     userIDCache st !! apiKey = Some e →
     (now ≤ expire e)%Z →
     isValidUserID (value e) = true →
     (ByAPIKey.cachedUserID st now rnd apiKey).2 = value e) ∧
  (∀ st now rnd provider model e,
     provider ≠ "" → model ≠ "" →
     userIDCache st !! cacheKey provider model = Some e →
     (now < expire e)%Z →
     isValidUserID (value e) = true →
     let out := cachedUserID st now rnd provider model in
     out.2 = value e ∧ userIDCache out.1 = userIDCache st).
Proof.
  repeat match goal with |- _ ∧ _ => split end.
  - intros st now rnd apiKey Hkey out. subst out. unfold ByAPIKey.cachedUserID.
    rewrite decide_False by done. simpl. apply lookup_insert_eq.
  - intros st now rnd apiKey e Hkey Hget Hlive Hvalid.
    unfold ByAPIKey.cachedUserID. rewrite decide_False by done. simpl.
    rewrite Hget. simpl. rewrite Hvalid. unfold Before.
    rewrite (proj2 (Z.ltb_ge _ _) Hlive).
    rewrite bool_decide_eq_false_2; [done|].
    intros Hempty. by rewrite Hempty in Hvalid.
  - intros st now rnd provider model e Hp Hm Hget Hlive Hvalid out. subst out.
    by rewrite (cachedUserID_hit _ _ Hp Hm _ _ _ _ Hget Hlive Hvalid).
Qed.

Lemma ttl_renewal_C8_witness :
  (* the same live entry, looked up half an hour before it runs out *)
  let st := holding sonnetKey Hour in
  let now := (30 * Minute)%Z in
  (expire <$> userIDCache (ByAPIKey.cachedUserID st now countTape sonnetKey).1
                !! sonnetKey) = Some (Add now userIDTTL) ∧
  (ByAPIKey.cachedUserID st now countTape sonnetKey).2
    = generateFakeUserID zeroTape ∧
  (expire <$> userIDCache
                (cachedUserID st now countTape "claude" "claude-3-5-sonnet").1
                !! sonnetKey) = Some Hour ∧
  (cachedUserID st now countTape "claude" "claude-3-5-sonnet").2
    = generateFakeUserID zeroTape.
Proof.
  intros st now.
  destruct ttl_renewal_C8 as (Hslide & Hkeep & Hfixed).
  assert (Hget : userIDCache st !! sonnetKey
                 = Some {| value := generateFakeUserID zeroTape; expire := Hour |})
    by apply lookup_singleton_eq.
  repeat match goal with |- _ ∧ _ => split end.
  - rewrite (Hslide st now countTape sonnetKey ltac:(discriminate)). reflexivity.
  - apply (Hkeep st now countTape sonnetKey _ ltac:(discriminate) Hget).
    + vm_compute. discriminate.
    + apply generateFakeUserID_valid.
  - destruct (Hfixed st now countTape "claude" "claude-3-5-sonnet" _
                ltac:(discriminate) ltac:(discriminate) Hget) as [_ Hmap].
    + vm_compute. reflexivity.
    + apply generateFakeUserID_valid.
    + rewrite Hmap, Hget. reflexivity.
  - apply (Hfixed st now countTape "claude" "claude-3-5-sonnet" _
             ltac:(discriminate) ltac:(discriminate) Hget).
    + vm_compute. reflexivity.
    + apply generateFakeUserID_valid.
Defined.

(** C10.  With an empty provider or an empty model, and with an empty API
    key, the call returns a freshly generated identity and leaves the cache
    state as it is; two such calls, on two draws of the random source, can
    return two identities. *)
Theorem cache_bypass_C10 :
  (∀ st now rnd model,
     cachedUserID st now rnd "" model = (st, generateFakeUserID rnd)) ∧
  (∀ st now rnd provider,
     cachedUserID st now rnd provider "" = (st, generateFakeUserID rnd)) ∧
  (∀ st now rnd,
     ByAPIKey.cachedUserID st now rnd "" = (st, generateFakeUserID rnd)) ∧
  (∃ st now r1 r2,
     (cachedUserID st now r1 "" "claude-3-5-sonnet").2
       ≠ (cachedUserID (cachedUserID st now r1 "" "claude-3-5-sonnet").1
            now r2 "" "claude-3-5-sonnet").2).
Proof.
  repeat match goal with |- _ ∧ _ => split end.
  - intros. unfold cachedUserID. by rewrite decide_True by (by left).
  - intros. unfold cachedUserID. by rewrite decide_True by (by right).
  - intros. unfold ByAPIKey.cachedUserID. by rewrite decide_True.
  - exists UserIDCache.empty, 0%Z, zeroTape, countTape.
    unfold cachedUserID. rewrite !decide_True by (by left). simpl.
    apply (generateFakeUserID_fresh _ _ 1); [lia|]. vm_compute. discriminate.
Qed.

End CacheFacts.

(** ** The admission gate: C6 *)
Module AdmissionGateFacts.
Import AdmissionGate Samples.
Local Open Scope nat_scope.

Lemma countPhase_insert (f : Phase → bool) (l : list Phase) (i : nat) p q :
  l !! i = Some p →
  countPhase f (<[i := q]> l) + weight (f p) = countPhase f l + weight (f q).
Proof.
  revert i. induction l as [|x l IH]; intros [|i] Hget; simpl in *; try done.
  - injection Hget as ->. unfold weight. destruct (f p), (f q); lia.
  - specialize (IH i Hget). destruct (f x); lia.
Qed.

Lemma countPhase_le (f g : Phase → bool) (l : list Phase) :
  (∀ p, f p = true → g p = true) → countPhase f l ≤ countPhase g l.
Proof.
  intros Hfg. induction l as [|x l IH]; simpl; [lia|].
  destruct (f x) eqn:Hf; [rewrite (Hfg x Hf); lia|destruct (g x); lia].
Qed.

Lemma countPhase_dispatch (f : Phase → bool) (due : list Due) :
  f Waiting = false → countPhase f (map (λ _, Waiting) due) = 0.
Proof. intros Hf. induction due as [|d due IH]; simpl; [done|]. by rewrite Hf. Qed.

Lemma countPhase_all_finished (l : list Phase) :
  Forall (λ p, isFinished p = true) l → countPhase holdsSlot l = 0.
Proof.
  induction 1 as [|p l Hp _ IH]; simpl; [done|]. by destruct p.
Qed.

Section gate.
Variable N : nat.

Lemma gateInvariant_dispatch due : gateInvariant N (dispatch due).
Proof.
  unfold gateInvariant, dispatch. simpl.
  rewrite !countPhase_dispatch by done. lia.
Qed.

Lemma gateInvariant_step s e s' :
  gateInvariant N s → step N s e = Some s' → gateInvariant N s'.
Proof.
  intros (Hheld & Hcap & Hcur & Hmax) Hstep.
  pose proof (countPhase_le inRefresh holdsSlot (phases s)
                ltac:(by intros []; simpl)) as Hle.
  destruct e as [i|i|i o|i]; simpl in Hstep;
    destruct (phases s !! i) as [[| | |o'|o']|] eqn:Hget; try done.
  - destruct (decide (held s < N)); [|done]. injection Hstep as <-.
    pose proof (countPhase_insert holdsSlot _ _ _ Granted Hget).
    pose proof (countPhase_insert inRefresh _ _ _ Granted Hget).
    unfold gateInvariant; simpl in *. lia.
  - injection Hstep as <-.
    pose proof (countPhase_insert holdsSlot _ _ _ Refreshing Hget).
    pose proof (countPhase_insert inRefresh _ _ _ Refreshing Hget).
    pose proof (countPhase_le inRefresh holdsSlot (<[i:=Refreshing]> (phases s))
                  ltac:(by intros []; simpl)).
    unfold gateInvariant; simpl in *. case_decide; lia.
  - injection Hstep as <-.
    pose proof (countPhase_insert holdsSlot _ _ _ (Returned o) Hget).
    pose proof (countPhase_insert inRefresh _ _ _ (Returned o) Hget).
    unfold gateInvariant; simpl in *. lia.
  - injection Hstep as <-.
    pose proof (countPhase_insert holdsSlot _ _ _ (Finished o') Hget).
    pose proof (countPhase_insert inRefresh _ _ _ (Finished o') Hget).
    unfold gateInvariant; simpl in *. lia.
Qed.

Lemma gateInvariant_run s es s' :
  gateInvariant N s → run N s es = Some s' → gateInvariant N s'.
Proof.
  revert s. induction es as [|e es IH]; intros s Hinv Hrun; simpl in Hrun.
  - by injection Hrun as <-.
  - destruct (step N s e) as [s1|] eqn:Hstep; [|done].
    eapply IH; [|done]. by eapply gateInvariant_step.
Qed.

Lemma gateInvariant_reachable due s :
  reachable N due s → gateInvariant N s.
Proof. intros [es Hrun]. eapply gateInvariant_run; [apply gateInvariant_dispatch|done]. Qed.

End gate.

(** C6.  In every state a tick can reach, with more due records than the
    ceiling and whatever their providers: at most [N] units are inside
    [Refresh], and the counting executor has never seen more than [N]; the
    counter of the gate is the number of units holding a slot; when all [N]
    slots are taken no further unit gets a slot; a unit inside [Refresh]
    can leave it with any outcome, success, error or cancellation, and
    after any outcome the release is enabled and frees one slot; once every
    unit has finished no slot is held. *)
Theorem admission_gate_C6 (N : nat) (due : list Due) (s : State) :
  N < length due →
  reachable N due s →
  countPhase inRefresh (phases s) ≤ N ∧
  max s ≤ N ∧
  held s = countPhase holdsSlot (phases s) ∧
  (held s = N → ∀ i, step N s (Acquire i) = None) ∧
  (∀ i o, phases s !! i = Some Refreshing →
          ∃ s', step N s (Leave i o) = Some s' ∧
                phases s' !! i = Some (Returned o)) ∧
  (∀ i o, phases s !! i = Some (Returned o) →
          ∃ s', step N s (Release i) = Some s' ∧
                S (held s') = held s ∧
                phases s' !! i = Some (Finished o)) ∧
  (Forall (λ p, isFinished p = true) (phases s) → held s = 0).
Proof.
  intros _ Hreach.
  destruct (gateInvariant_reachable N due s Hreach) as (Hheld & Hcap & Hcur & Hmax).
  pose proof (countPhase_le inRefresh holdsSlot (phases s)
                ltac:(by intros []; simpl)) as Hle.
  repeat match goal with |- _ ∧ _ => split end; try done.
  - lia.
  - intros Hfull i. simpl. destruct (phases s !! i) as [[]|]; try done.
    rewrite decide_False by lia. done.
  - intros i o Hget. simpl. rewrite Hget. eexists. split; [done|]. simpl.
    apply list_lookup_insert_eq. by eapply lookup_lt_Some.
  - intros i o Hget. simpl. rewrite Hget. eexists. split; [done|]. simpl.
    split; [|apply list_lookup_insert_eq; by eapply lookup_lt_Some].
    pose proof (countPhase_insert holdsSlot _ _ _ (Finished o) Hget) as Hins.
    simpl in Hins. lia.
  - intros Hall. rewrite Hheld. by apply countPhase_all_finished.
Qed.

Lemma admission_gate_C6_witness :
  (* ceiling one, three due records of two providers; the first is inside
     Refresh, the others wait *)
  let s := {| held := 1; phases := [Refreshing; Waiting; Waiting];
              current := 1; max := 1 |} in
  run 1 (dispatch threeDue) [Acquire 0; Enter 0] = Some s ∧
  countPhase inRefresh (phases s) ≤ 1 ∧
  step 1 s (Acquire 1) = None ∧
  (∃ s', step 1 s (Leave 0 Cancelled) = Some s' ∧
         phases s' !! 0 = Some (Returned Cancelled)).
Proof.
  intros s.
  assert (Hrun : run 1 (dispatch threeDue) [Acquire 0; Enter 0] = Some s)
    by reflexivity.
  destruct (admission_gate_C6 1 threeDue s) as (Hin & _ & _ & Hfull & Hleave & _).
  - simpl. lia.
  - by exists [Acquire 0; Enter 0].
  - split; [exact Hrun|]. split; [exact Hin|]. split.
    + by apply Hfull.
    + by apply Hleave.
Defined.

(** The run of the test: with ceiling [N = 2] and [2 * N + 1 = 5] due
    records, an interleaving that finishes all five never has more than two
    inside [Refresh]. *)
Example five_due_ceiling_two :
  (λ s, (max s, held s, current s)) <$>
    run 2 (dispatch (take 5 (threeDue ++ threeDue)%list))
      [ Acquire 0; Acquire 1; Enter 0; Enter 1; Leave 0 Succeeded;
        Release 0; Acquire 2; Enter 2; Leave 1 (Failed "boom"); Release 1;
        Acquire 3; Enter 3; Leave 2 Succeeded; Leave 3 Cancelled;
        Release 3; Release 2; Acquire 4; Enter 4; Leave 4 Succeeded;
        Release 4 ]
  = Some (2, 0, 0).
Proof. vm_compute. reflexivity. Qed.

End AdmissionGateFacts.

(** ** More on the identity cache *)
Module CacheExtras.
Import GoTime Identity IdentityFacts IdentityInjective UserIDCache CacheRuns
       CacheFacts Samples.

Lemma userIDTTL_pos : (0 < userIDTTL)%Z.
Proof. reflexivity. Qed.

Lemma valid_nonempty v : isValidUserID v = true → v ≠ "".
Proof. intros Hv ->. discriminate Hv. Qed.

Lemma purge_map_lookup now (m : gmap string userIDCacheEntry) k e :
  filter (λ kv, expired now kv.2 = false) m !! k = Some e ↔
  m !! k = Some e ∧ (now ≤ expire e)%Z.
Proof.
  rewrite map_lookup_filter_Some. unfold expired, Before. simpl.
  by rewrite Z.ltb_ge.
Qed.

Lemma purge_purge t1 t2 st :
  purgeExpiredUserIDs t2 (purgeExpiredUserIDs t1 st)
    = purgeExpiredUserIDs (Z.max t1 t2) st.
Proof.
  unfold purgeExpiredUserIDs. simpl. f_equal.
  apply map_eq. intros k. apply option_eq. intros e.
  rewrite !purge_map_lookup. split.
  - intros [[? ?] ?]. split; [done|lia].
  - intros [? ?]. repeat split; [done|lia..].
Qed.

(** X1.  However many times the cleanup ticker has fired, the cache is what
    one purge at the latest of the ticks leaves: the entries that had not
    run out by then, unchanged. *)
Theorem cleanup_ticks_latest (t : Time) (ts : list Time) (st : State) :
  cleanupTicks (t :: ts) st = purgeExpiredUserIDs (fold_left Z.max ts t) st ∧
  ∀ k e, userIDCache (cleanupTicks (t :: ts) st) !! k = Some e ↔
         userIDCache st !! k = Some e ∧ (fold_left Z.max ts t ≤ expire e)%Z.
Proof.
  assert (Hticks : cleanupTicks (t :: ts) st
                   = purgeExpiredUserIDs (fold_left Z.max ts t) st).
  { unfold cleanupTicks. simpl. revert t st.
    induction ts as [|t' ts IH]; intros t st; simpl; [done|].
    by rewrite purge_purge, IH. }
  split; [done|]. intros k e. rewrite Hticks. apply purge_map_lookup.
Qed.

(** X2.  A purge that ran no later than a lookup of a (provider, model)
    pair does not show in it: the lookup returns the value it would have
    returned without the purge, and leaves the cache the purge would have
    left after it. *)
Theorem purge_then_pair_lookup (st : State) (purgedAt now : Time)
    (rnd : Entropy) (provider model : string) :
  (purgedAt ≤ now)%Z →
  ByProviderModel.cachedUserID (purgeExpiredUserIDs purgedAt st) now rnd
      provider model
    = (purgeExpiredUserIDs purgedAt
         (ByProviderModel.cachedUserID st now rnd provider model).1,
       (ByProviderModel.cachedUserID st now rnd provider model).2).
Proof.
  intros Hle. pose proof userIDTTL_pos as Httl.
  unfold ByProviderModel.cachedUserID.
  destruct (decide (provider = "" ∨ model = "")) as [|_]; [done|]. cbv zeta.
  set (key := ByProviderModel.cacheKey provider model).
  set (fresh := {| value := generateFakeUserID rnd; expire := Add now userIDTTL |}).
  assert (Hmint :
    filter (λ kv, expired purgedAt kv.2 = false) (<[key := fresh]> (userIDCache st))
    = <[key := fresh]> (filter (λ kv, expired purgedAt kv.2 = false) (userIDCache st))).
  { apply map_filter_insert_True. unfold expired, Before, fresh, Add. simpl.
    apply Z.ltb_ge. lia. }
  destruct (userIDCache st !! key) as [e|] eqn:Hget.
  - destruct (decide (purgedAt ≤ expire e)%Z) as [Hkept|Hgone].
    + assert (Hget' : userIDCache (purgeExpiredUserIDs purgedAt st) !! key = Some e)
        by (by apply purge_map_lookup).
      rewrite Hget'.
      destruct (After (expire e) now && negb (bool_decide (value e = ""))
                && isValidUserID (value e)); simpl; [done|].
      unfold purgeExpiredUserIDs. simpl. by rewrite Hmint.
    + assert (Hget' : userIDCache (purgeExpiredUserIDs purgedAt st) !! key = None).
      { apply eq_None_not_Some. intros [e' He']. apply purge_map_lookup in He'.
        destruct He' as [He' ?]. rewrite Hget in He'. injection He' as <-. lia. }
      rewrite Hget'. unfold After.
      rewrite (proj2 (Z.ltb_ge _ _)) by lia. simpl.
      unfold purgeExpiredUserIDs. simpl. by rewrite Hmint.
  - assert (Hget' : userIDCache (purgeExpiredUserIDs purgedAt st) !! key = None).
    { apply eq_None_not_Some. intros [e' He']. apply purge_map_lookup in He'.
      destruct He' as [He' ?]. by rewrite Hget in He'. }
    rewrite Hget'. unfold purgeExpiredUserIDs. simpl. by rewrite Hmint.
Qed.

Lemma purge_then_pair_lookup_witness :
  (ByProviderModel.cachedUserID
     (purgeExpiredUserIDs Minute (holding sonnetKey Hour)) (2 * Minute)%Z
     countTape "claude" "claude-3-5-sonnet").2
  = (ByProviderModel.cachedUserID (holding sonnetKey Hour) (2 * Minute)%Z
       countTape "claude" "claude-3-5-sonnet").2.
Proof.
  rewrite (purge_then_pair_lookup (holding sonnetKey Hour) Minute (2 * Minute)%Z
             countTape "claude" "claude-3-5-sonnet");
    [reflexivity|vm_compute; discriminate].
Defined.

(** X3.  The same for the lookup by API key. *)
Theorem purge_then_key_lookup (st : State) (purgedAt now : Time)
    (rnd : Entropy) (apiKey : string) :
  (purgedAt ≤ now)%Z →
  ByAPIKey.cachedUserID (purgeExpiredUserIDs purgedAt st) now rnd apiKey
    = (purgeExpiredUserIDs purgedAt
         (ByAPIKey.cachedUserID st now rnd apiKey).1,
       (ByAPIKey.cachedUserID st now rnd apiKey).2).
Proof.
  intros Hle. pose proof userIDTTL_pos as Httl.
  unfold ByAPIKey.cachedUserID.
  destruct (decide (apiKey = "")) as [|_]; [done|]. cbv zeta.
  assert (Hvalue :
    (let entry := default zeroEntry
                    (userIDCache (purgeExpiredUserIDs purgedAt st) !! apiKey) in
     if bool_decide (value entry = "") || Before (expire entry) now
        || negb (isValidUserID (value entry))
     then generateFakeUserID rnd else value entry)
    = (let entry := default zeroEntry (userIDCache st !! apiKey) in
       if bool_decide (value entry = "") || Before (expire entry) now
          || negb (isValidUserID (value entry))
       then generateFakeUserID rnd else value entry)).
  { cbv zeta. destruct (userIDCache st !! apiKey) as [e|] eqn:Hget.
    - destruct (decide (purgedAt ≤ expire e)%Z) as [Hkept|Hgone].
      + assert (Hget' :
          userIDCache (purgeExpiredUserIDs purgedAt st) !! apiKey = Some e)
          by (by apply purge_map_lookup).
        by rewrite Hget'.
      + assert (Hget' :
          userIDCache (purgeExpiredUserIDs purgedAt st) !! apiKey = None).
        { apply eq_None_not_Some. intros [e' He']. apply purge_map_lookup in He'.
          destruct He' as [He' ?]. rewrite Hget in He'. injection He' as <-. lia. }
        rewrite Hget'. simpl. unfold Before.
        rewrite (proj2 (Z.ltb_lt (expire e) now)) by lia.
        by rewrite orb_true_r.
    - assert (Hget' :
        userIDCache (purgeExpiredUserIDs purgedAt st) !! apiKey = None).
      { apply eq_None_not_Some. intros [e' He']. apply purge_map_lookup in He'.
        destruct He' as [He' ?]. by rewrite Hget in He'. }
      by rewrite Hget'. }
  cbv zeta in Hvalue. rewrite Hvalue. simpl. f_equal.
  unfold purgeExpiredUserIDs. simpl. f_equal. symmetry.
  apply map_filter_insert_True. unfold expired, Before, Add. simpl.
  apply Z.ltb_ge. lia.
Qed.

Lemma purge_then_key_lookup_witness :
  (ByAPIKey.cachedUserID
     (purgeExpiredUserIDs Minute (holding "test-key-123" Hour)) (2 * Minute)%Z
     countTape "test-key-123").2
  = (ByAPIKey.cachedUserID (holding "test-key-123" Hour) (2 * Minute)%Z
       countTape "test-key-123").2.
Proof.
  rewrite (purge_then_key_lookup (holding "test-key-123" Hour) Minute
             (2 * Minute)%Z countTape "test-key-123");
    [reflexivity|vm_compute; discriminate].
Defined.

Lemma key_lookup_value st now rnd apiKey :
  (ByAPIKey.cachedUserID st now rnd apiKey).2 = generateFakeUserID rnd ∨
  ∃ e, userIDCache st !! apiKey = Some e ∧
       (ByAPIKey.cachedUserID st now rnd apiKey).2 = value e ∧
       isValidUserID (value e) = true ∧ (now ≤ expire e)%Z.
Proof.
  unfold ByAPIKey.cachedUserID.
  destruct (decide (apiKey = "")); [by left|]. cbv zeta. simpl.
  destruct (userIDCache st !! apiKey) as [e|]; simpl; [|by left].
  destruct (bool_decide (value e = "")); simpl; [by left|].
  unfold Before. destruct (expire e <? now)%Z eqn:Hexp; simpl; [by left|].
  destruct (isValidUserID (value e)) eqn:Hv; simpl; [|by left].
  right. exists e. apply Z.ltb_ge in Hexp. done.
Qed.

Lemma pair_lookup_value st now rnd provider model :
  (ByProviderModel.cachedUserID st now rnd provider model).2
    = generateFakeUserID rnd ∨
  ∃ e, userIDCache st !! ByProviderModel.cacheKey provider model = Some e ∧
       (ByProviderModel.cachedUserID st now rnd provider model).2 = value e ∧
       isValidUserID (value e) = true ∧ (now < expire e)%Z.
Proof.
  unfold ByProviderModel.cachedUserID.
  destruct (decide (provider = "" ∨ model = "")); [by left|]. cbv zeta.
  destruct (userIDCache st !! _) as [e|]; simpl; [|by left].
  unfold After. destruct (now <? expire e)%Z eqn:Hexp; simpl; [|by left].
  destruct (bool_decide (value e = "")); simpl; [by left|].
  destruct (isValidUserID (value e)) eqn:Hv; simpl; [|by left].
  right. exists e. apply Z.ltb_lt in Hexp. done.
Qed.

Lemma lookup_returns_valid_key st now rnd apiKey :
  isValidUserID (ByAPIKey.cachedUserID st now rnd apiKey).2 = true.
Proof.
  destruct (key_lookup_value st now rnd apiKey) as [->|(e & _ & -> & Hv & _)];
    [apply generateFakeUserID_valid|done].
Qed.

Lemma lookup_returns_valid_pair st now rnd provider model :
  isValidUserID (ByProviderModel.cachedUserID st now rnd provider model).2 = true.
Proof.
  destruct (pair_lookup_value st now rnd provider model)
    as [->|(e & _ & -> & Hv & _)];
    [apply generateFakeUserID_valid|done].
Qed.

(** X4.  Whatever the cache holds and whatever the key, empty or not, both
    lookups return a well-formed identity: a stored value is handed out
    only after it has passed the validator. *)
Theorem lookup_returns_valid :
  (∀ st now rnd apiKey,
     isValidUserID (ByAPIKey.cachedUserID st now rnd apiKey).2 = true) ∧
  (∀ st now rnd provider model,
     isValidUserID
       (ByProviderModel.cachedUserID st now rnd provider model).2 = true).
Proof.
  split; [apply lookup_returns_valid_key|apply lookup_returns_valid_pair].
Qed.

Lemma lookup_frame_key st now rnd apiKey k :
  k ≠ apiKey →
  userIDCache (ByAPIKey.cachedUserID st now rnd apiKey).1 !! k
    = userIDCache st !! k.
Proof.
  intros Hne. unfold ByAPIKey.cachedUserID.
  destruct (decide (apiKey = "")); [done|]. simpl.
  by apply lookup_insert_ne.
Qed.

Lemma lookup_frame_pair st now rnd provider model k :
  k ≠ ByProviderModel.cacheKey provider model →
  userIDCache (ByProviderModel.cachedUserID st now rnd provider model).1 !! k
    = userIDCache st !! k.
Proof.
  intros Hne. unfold ByProviderModel.cachedUserID.
  destruct (decide (provider = "" ∨ model = "")); [done|]. cbv zeta.
  destruct (userIDCache st !! _) as [e|]; simpl.
  - destruct (After (expire e) now && negb (bool_decide (value e = ""))
              && isValidUserID (value e)); simpl; [done|].
    by apply lookup_insert_ne.
  - by apply lookup_insert_ne.
Qed.

(** X5.  A lookup touches no entry but that of its own key. *)
Theorem lookup_frame :
  (∀ st now rnd apiKey k,
     k ≠ apiKey →
     userIDCache (ByAPIKey.cachedUserID st now rnd apiKey).1 !! k
       = userIDCache st !! k) ∧
  (∀ st now rnd provider model k,
     k ≠ ByProviderModel.cacheKey provider model →
     userIDCache (ByProviderModel.cachedUserID st now rnd provider model).1 !! k
       = userIDCache st !! k).
Proof.
  split; [apply lookup_frame_key|apply lookup_frame_pair].
Qed.

Lemma lookup_frame_witness :
  userIDCache
    (ByProviderModel.cachedUserID (holding sonnetKey Hour) 0%Z countTape
       "claude" "claude-3-5-haiku").1 !! sonnetKey
  = Some {| value := generateFakeUserID zeroTape; expire := Hour |}.
Proof.
  rewrite (proj2 lookup_frame (holding sonnetKey Hour) 0%Z countTape
             "claude" "claude-3-5-haiku" sonnetKey);
    [apply lookup_singleton_eq|vm_compute; discriminate].
Defined.

Lemma cacheKey_cons c provider model :
  ByProviderModel.cacheKey (String c provider) model
    = String c (ByProviderModel.cacheKey provider model).
Proof. reflexivity. Qed.

Lemma cacheKey_nil model :
  ByProviderModel.cacheKey "" model = String "|"%char model.
Proof. reflexivity. Qed.

(** X6.  Two (provider, model) pairs whose providers contain no ["|"] share
    a cache key only when they are the same pair.  Without that condition
    they can: the pairs ("a|b", "c") and ("a", "b|c") have one key, hence
    one identity. *)
Theorem cacheKey_injective :
  (∀ p1 m1 p2 m2,
     noBar p1 = true → noBar p2 = true →
     ByProviderModel.cacheKey p1 m1 = ByProviderModel.cacheKey p2 m2 →
     p1 = p2 ∧ m1 = m2) ∧
  ByProviderModel.cacheKey "a|b" "c" = ByProviderModel.cacheKey "a" "b|c".
Proof.
  split; [|reflexivity].
  induction p1 as [|c p1 IH]; intros m1 [|d p2] m2 Hb1 Hb2 Heq.
  - rewrite !cacheKey_nil in Heq. by injection Heq as ->.
  - rewrite cacheKey_nil, cacheKey_cons in Heq. injection Heq as <- _.
    discriminate Hb2.
  - rewrite cacheKey_nil, cacheKey_cons in Heq. injection Heq as -> _.
    discriminate Hb1.
  - rewrite !cacheKey_cons in Heq. injection Heq as -> Heq.
    simpl in Hb1, Hb2. apply andb_true_iff in Hb1 as [_ Hb1], Hb2 as [_ Hb2].
    by destruct (IH m1 p2 m2 Hb1 Hb2 Heq) as [-> ->].
Qed.

Lemma cacheKey_injective_witness :
  ByProviderModel.cacheKey "claude" "claude-3-5-sonnet"
    ≠ ByProviderModel.cacheKey "claude" "claude-3-5-haiku".
Proof.
  intros Heq.
  destruct (proj1 cacheKey_injective "claude" "claude-3-5-sonnet"
              "claude" "claude-3-5-haiku" eq_refl eq_refl Heq) as [_ Hm].
  discriminate Hm.
Defined.

Lemma keyLookups_same st apiKey previous v calls :
  apiKey ≠ "" →
  userIDCache st !! apiKey
    = Some {| value := v; expire := Add previous userIDTTL |} →
  isValidUserID v = true →
  gapsWithinTTL previous calls →
  Forall (λ w, w = v) (keyLookups st apiKey calls).2.
Proof.
  intros Hkey. revert st previous.
  induction calls as [|[now rnd] calls IH]; intros st previous Hget Hv Hgaps;
    simpl; [constructor|].
  destruct Hgaps as [Hgap Hgaps].
  assert (Hcall : ByAPIKey.cachedUserID st now rnd apiKey
                  = ({| userIDCache :=
                          <[apiKey := {| value := v; expire := Add now userIDTTL |}]>
                            (userIDCache st);
                        cleanupStarted := true |}, v)).
  { unfold ByAPIKey.cachedUserID. rewrite decide_False by done. cbv zeta.
    rewrite Hget. simpl. rewrite Hv. unfold Before.
    rewrite (proj2 (Z.ltb_ge _ _) Hgap).
    by rewrite (bool_decide_eq_false_2 _ (valid_nonempty v Hv)). }
  rewrite Hcall.
  specialize (IH {| userIDCache :=
                      <[apiKey := {| value := v; expire := Add now userIDTTL |}]>
                        (userIDCache st);
                    cleanupStarted := true |} now).
  destruct (keyLookups _ apiKey calls) as [st2 vs]. simpl.
  constructor; [done|]. apply IH; [apply lookup_insert_eq|done|done].
Qed.

(** X7.  Keyed by the API key, an identity lives as long as it is used: if
    every lookup comes no later than one TTL after the one before it, all
    of them return the identity the first one returned, however long the
    sequence lasts. *)
Theorem key_identity_kept_alive (st : State) (apiKey : string)
    (t0 : Time) (r0 : Entropy) (calls : list Call) :
  apiKey ≠ "" →
  gapsWithinTTL t0 calls →
  Forall (λ w, w = (ByAPIKey.cachedUserID st t0 r0 apiKey).2)
         (keyLookups (ByAPIKey.cachedUserID st t0 r0 apiKey).1 apiKey calls).2.
Proof.
  intros Hkey Hgaps.
  apply (keyLookups_same _ _ t0); try done.
  - unfold ByAPIKey.cachedUserID. rewrite decide_False by done. simpl.
    apply lookup_insert_eq.
  - apply lookup_returns_valid_key.
Qed.

Lemma key_identity_kept_alive_witness :
  (* lookups at 0, 30 and 80 minutes: the last one comes after the hour
     counted from the first, and still finds the first identity *)
  Forall (λ w, w = (ByAPIKey.cachedUserID UserIDCache.empty 0%Z zeroTape
                      "test-key-123").2)
         (keyLookups (ByAPIKey.cachedUserID UserIDCache.empty 0%Z zeroTape
                        "test-key-123").1 "test-key-123"
            [((30 * Minute)%Z, countTape); ((80 * Minute)%Z, countTape)]).2.
Proof.
  apply (key_identity_kept_alive UserIDCache.empty "test-key-123" 0%Z zeroTape
           [((30 * Minute)%Z, countTape); ((80 * Minute)%Z, countTape)]).
  - discriminate.
  - simpl. repeat split; vm_compute; discriminate.
Defined.

Lemma pairLookups_same provider model st e calls :
  provider ≠ "" → model ≠ "" →
  cleanupStarted st = true →
  userIDCache st !! ByProviderModel.cacheKey provider model = Some e →
  isValidUserID (value e) = true →
  Forall (λ c : Call, (c.1 < expire e)%Z) calls →
  pairLookups st provider model calls = (st, map (λ _, value e) calls).
Proof.
  intros Hp Hm Hstarted Hget Hv Hlive.
  induction Hlive as [|[now rnd] calls Hnow _ IH]; simpl; [done|].
  rewrite (cachedUserID_hit provider model Hp Hm st now rnd e Hget Hnow Hv).
  replace {| userIDCache := userIDCache st; cleanupStarted := true |} with st
    by (destruct st; simpl in *; by subst).
  by rewrite IH.
Qed.

(** X8.  Keyed by provider and model, use does not prolong an identity:
    while lookups come before the entry runs out they all return its value
    and leave the map as it is, and the first lookup at or after that
    instant returns a newly generated identity, however recent the last
    use. *)
Theorem pair_identity_fixed_window (st : State) (provider model : string)
    (e : userIDCacheEntry) (calls : list Call) (now : Time) (rnd : Entropy) :
  provider ≠ "" → model ≠ "" →
  userIDCache st !! ByProviderModel.cacheKey provider model = Some e →
  isValidUserID (value e) = true →
  Forall (λ c : Call, (c.1 < expire e)%Z) calls →
  (expire e ≤ now)%Z →
  let out := pairLookups st provider model calls in
  Forall (λ w, w = value e) out.2 ∧
  userIDCache out.1 = userIDCache st ∧
  ByProviderModel.cachedUserID out.1 now rnd provider model
    = ({| userIDCache :=
            <[ByProviderModel.cacheKey provider model :=
                {| value := generateFakeUserID rnd;
                   expire := Add now userIDTTL |}]> (userIDCache st);
          cleanupStarted := true |}, generateFakeUserID rnd).
Proof.
  intros Hp Hm Hget Hv Hlive Hexp out.
  assert (Hmap : userIDCache out.1 = userIDCache st ∧
                 Forall (λ w, w = value e) out.2).
  { subst out. destruct calls as [|[t r] calls]; [by split|].
    simpl. apply Forall_cons in Hlive as [Ht Hlive].
    rewrite (cachedUserID_hit provider model Hp Hm st t r e Hget Ht Hv).
    rewrite (pairLookups_same provider model
               {| userIDCache := userIDCache st; cleanupStarted := true |}
               e calls Hp Hm eq_refl Hget Hv Hlive).
    simpl. split; [done|]. constructor; [done|].
    apply Forall_forall. intros w Hw.
    apply list_elem_of_In, in_map_iff in Hw as (? & <- & _). done. }
  destruct Hmap as [Hmap Hall]. repeat split; [done..|].
  rewrite (cachedUserID_miss provider model Hp Hm out.1 now rnd).
  - by rewrite Hmap.
  - intros e' He'. rewrite Hmap, Hget in He'. injection He' as <-. by left.
Qed.

Lemma pair_identity_fixed_window_witness :
  (* an identity that runs out at one hour, used at 30 and 59 minutes, is
     replaced at 60 minutes *)
  let calls := [((30 * Minute)%Z, countTape); ((59 * Minute)%Z, countTape)] in
  let out := pairLookups (holding sonnetKey Hour) "claude" "claude-3-5-sonnet"
               calls in
  Forall (λ w, w = generateFakeUserID zeroTape) out.2 ∧
  (ByProviderModel.cachedUserID out.1 Hour countTape
     "claude" "claude-3-5-sonnet").2 = generateFakeUserID countTape.
Proof.
  intros calls out.
  destruct (pair_identity_fixed_window (holding sonnetKey Hour)
              "claude" "claude-3-5-sonnet"
              {| value := generateFakeUserID zeroTape; expire := Hour |}
              calls Hour countTape) as (Hall & _ & Hnext).
  - discriminate.
  - discriminate.
  - apply lookup_singleton_eq.
  - apply generateFakeUserID_valid.
  - repeat constructor.
  - simpl. lia.
  - split; [exact Hall|]. fold out in Hnext. by rewrite Hnext.
Defined.

(** X9.  At the very instant an entry runs out the two revisions part: the
    lookup by API key still returns the stored identity (it asks whether
    [expire] is before now), the lookup by provider and model already
    replaces it (it asks whether [expire] is after now). *)
Theorem expiry_instant (st : State) (now : Time) (rnd : Entropy)
    (e : userIDCacheEntry) :
  isValidUserID (value e) = true →
  expire e = now →
  (∀ apiKey, apiKey ≠ "" → userIDCache st !! apiKey = Some e →
     (ByAPIKey.cachedUserID st now rnd apiKey).2 = value e) ∧
  (∀ provider model, provider ≠ "" → model ≠ "" →
     userIDCache st !! ByProviderModel.cacheKey provider model = Some e →
     (ByProviderModel.cachedUserID st now rnd provider model).2
       = generateFakeUserID rnd).
Proof.
  intros Hv Hexp. split.
  - intros apiKey Hkey Hget. unfold ByAPIKey.cachedUserID.
    rewrite decide_False by done. cbv zeta. rewrite Hget. simpl.
    rewrite Hv, Hexp. unfold Before. rewrite Z.ltb_irrefl.
    by rewrite (bool_decide_eq_false_2 _ (valid_nonempty _ Hv)).
  - intros provider model Hp Hm Hget.
    rewrite (cachedUserID_miss provider model Hp Hm st now rnd); [done|].
    intros e' He'. rewrite Hget in He'. injection He' as <-. left. lia.
Qed.

Lemma expiry_instant_witness :
  (ByAPIKey.cachedUserID (holding sonnetKey Hour) Hour countTape sonnetKey).2
    = generateFakeUserID zeroTape ∧
  (ByProviderModel.cachedUserID (holding sonnetKey Hour) Hour countTape
     "claude" "claude-3-5-sonnet").2 = generateFakeUserID countTape.
Proof.
  destruct (expiry_instant (holding sonnetKey Hour) Hour countTape
              {| value := generateFakeUserID zeroTape; expire := Hour |})
    as [Hkey Hpair].
  - apply generateFakeUserID_valid.
  - reflexivity.
  - split.
    + apply Hkey; [discriminate|apply lookup_singleton_eq].
    + apply Hpair; [discriminate|discriminate|apply lookup_singleton_eq].
Defined.

Lemma AllValid_purge now st : AllValid st → AllValid (purgeExpiredUserIDs now st).
Proof.
  intros Hall k e He. apply purge_map_lookup in He as [He _]. by eapply Hall.
Qed.

Lemma AllValid_keyStep st op : AllValid st → AllValid (keyStep st op).
Proof.
  intros Hall. destruct op as [now rnd apiKey|now]; simpl;
    [|by apply AllValid_purge].
  intros k e He.
  destruct (decide (k = apiKey)) as [->|Hne].
  - pose proof (lookup_returns_valid_key st now rnd apiKey) as Hv.
    unfold ByAPIKey.cachedUserID in *.
    destruct (decide (apiKey = "")); [by eapply Hall|].
    simpl in *. rewrite lookup_insert_eq in He. by injection He as <-.
  - rewrite (lookup_frame_key st now rnd apiKey k Hne) in He. by eapply Hall.
Qed.

Lemma AllValid_pairStep st op : AllValid st → AllValid (pairStep st op).
Proof.
  intros Hall. destruct op as [now rnd provider model|now]; simpl;
    [|by apply AllValid_purge].
  intros k e He.
  destruct (decide (k = ByProviderModel.cacheKey provider model)) as [->|Hne].
  - unfold ByProviderModel.cachedUserID in He.
    destruct (decide (provider = "" ∨ model = "")); [by eapply Hall|].
    cbv zeta in He.
    destruct (userIDCache st !! _) as [e0|] eqn:Hget; simpl in He.
    + destruct (After (expire e0) now && negb (bool_decide (value e0 = ""))
                && isValidUserID (value e0)); simpl in He.
      * by eapply Hall.
      * rewrite lookup_insert_eq in He. injection He as <-.
        apply generateFakeUserID_valid.
    + rewrite lookup_insert_eq in He. injection He as <-.
      apply generateFakeUserID_valid.
  - rewrite (lookup_frame_pair st now rnd provider model k Hne) in He.
    by eapply Hall.
Qed.

(** X10.  Starting from the empty map, whatever lookups and purges follow
    one another, in either revision, every value the map holds is a
    well-formed identity. *)
Theorem stored_values_valid :
  (∀ ops, AllValid (fold_left keyStep ops UserIDCache.empty)) ∧
  (∀ ops, AllValid (fold_left pairStep ops UserIDCache.empty)).
Proof.
  assert (Hempty : AllValid UserIDCache.empty) by (intros k e He; done).
  split; intros ops; revert Hempty; generalize UserIDCache.empty;
    induction ops as [|op ops IH]; intros st Hst; simpl; try done;
    apply IH; [by apply AllValid_keyStep|by apply AllValid_pairStep].
Qed.

End CacheExtras.

(** ** More on the force-refresh handler *)
Module HandlerExtras.
Import GoStrings GoStringsFacts GoTime coreauth management ForceRefreshFacts Stubs.

(** Close a goal that compares a concrete status, flag and payload. *)
Ltac agree_leaf :=
  simpl;
  unfold StatusOK, StatusBadRequest, StatusNotFound, StatusInternalServerError;
  repeat split; intros;
  try done;
  try (by match goal with H : is_Some None |- _ => destruct H end);
  try (by eexists).

Section generic.
Context `{!Strings} {M : Type} `{!Manager M}.

(** X11.  An empty request body is let through as a request without
    fields, and an identifier made of white space only counts as missing:
    either way both revisions answer bad-request, "auth_id is required",
    before looking anything up, and leave the manager alone. *)
Theorem blank_identifier_rejected (m : M) now body :
  body = BodyEOF ∨
    (∃ req, body = BodyJSON req ∧ allSpace (req_AuthID req) = true) →
  Flat.PostForceRefreshTokens (withManager m) now body
    = (withManager m,
       (StatusBadRequest,
        Flat.failure "" (ToLower (TrimSpace (req_Provider (requestOf body))))
          "auth_id is required")) ∧
  Listed.PostForceRefreshTokens (withManager m) now body
    = (withManager m,
       (StatusBadRequest, Listed.ErrorOnly "auth_id is required")).
Proof.
  intros Hblank.
  assert (Hbody : body ≠ BodyMalformed).
  { destruct Hblank as [->|(req & -> & _)]; discriminate. }
  assert (Hid : TrimSpace (req_AuthID (requestOf body)) = "").
  { destruct Hblank as [->|(req & -> & Hsp)]; [apply TrimSpace_empty|].
    by apply TrimSpace_allSpace. }
  rewrite PostForceRefreshTokens_bound, Listed_bound by done. cbv zeta.
  rewrite Hid. by rewrite !decide_True.
Qed.

(** X12.  In the revision with the contract check, a bad-request or
    not-found answer never comes with a changed manager: the only call that
    can change it is [Update], and a failed [Update] is answered
    internal-error. *)
Theorem client_errors_leave_manager (m : M) now body :
  let out := Flat.PostForceRefreshTokens (withManager m) now body in
  out.2.1 = StatusBadRequest ∨ out.2.1 = StatusNotFound →
  out.1 = withManager m.
Proof.
  intros out Hstatus. subst out.
  assert (Hcase : body = BodyMalformed ∨ body ≠ BodyMalformed)
    by (destruct body; (by left) || (by right)).
  destruct Hcase as [->|Hbody]; [done|].
  rewrite PostForceRefreshTokens_bound in * by done. cbv zeta in *.
  destruct (decide (TrimSpace _ = "")); [done|].
  destruct (GetByID m _) as [auth|]; [|done].
  destruct (negb (bool_decide _) && negb (EqualFold _ _)); [done|].
  destruct (Executor m _) as [exec|]; [|done].
  destruct (Refresh exec (Clone auth)) as [refreshed [errRefresh|]]; [done|].
  unfold Flat.afterRefresh in *. cbv zeta in *.
  destruct (decide (ID _ ≠ ID auth)); [done|].
  destruct (negb (EqualFold _ _)); [done|].
  destruct (Update m _) as [m' [[persisted|] [errUpdate|]]]; simpl in *;
    destruct Hstatus; discriminate.
Qed.

(** X13.  In both revisions the status, the refreshed flag and the
    credential payload agree: a result says refreshed=true exactly when the
    status is OK, and carries a credential exactly then; the earlier
    revision answers either a bare error, never with status OK, or exactly
    one result. *)
Theorem status_flag_payload_agree (h : Handler M) now body :
  (let out := Flat.PostForceRefreshTokens h now body in
   (Flat.Refreshed out.2.2 = true ↔ out.2.1 = StatusOK) ∧
   (is_Some (Flat.Auth out.2.2) ↔ out.2.1 = StatusOK)) ∧
  (let out := Listed.PostForceRefreshTokens h now body in
   match out.2.2 with
   | Listed.ErrorOnly _ => out.2.1 ≠ StatusOK ∧ out.1 = h
   | Listed.Results rs =>
       ∃ r, rs = [r] ∧
            (Listed.Refreshed r = true ↔ out.2.1 = StatusOK) ∧
            (is_Some (Listed.Auth r) ↔ out.2.1 = StatusOK)
   end).
Proof.
  split.
  - unfold Flat.PostForceRefreshTokens. cbv zeta.
    repeat case_match; agree_leaf.
  - cbv zeta.
    destruct (Listed.PostForceRefreshTokens h now body)
      as [h' [status payload]] eqn:Hout. simpl.
    unfold Listed.PostForceRefreshTokens in Hout. cbv zeta in Hout.
    repeat case_match; simplify_eq; try agree_leaf;
      eexists; (split; [reflexivity|]); agree_leaf.
Qed.

Lemma returnedRecord_same auth refreshed :
  ID (default (Clone auth) refreshed) = ID auth →
  coreauth.Provider (default (Clone auth) refreshed) = coreauth.Provider auth →
  Flat.returnedRecord auth refreshed = default (Clone auth) refreshed.
Proof.
  intros Hid Hprov. unfold Flat.returnedRecord. cbv zeta.
  set (u := default (Clone auth) refreshed) in *.
  assert (Hu : (if decide (ID u = "") then setID (ID auth) u else u) = u).
  { case_decide; [|done]. by rewrite <- Hid, setID_same. }
  rewrite Hu. clear Hu. case_decide; [|done].
  by rewrite <- Hprov, setProvider_same.
Qed.

(** X14.  Where the executor hands back the stored identifier and provider
    (or nothing), the two revisions hand [Update] the same record, and then
    differ only in how they read its answer: a record without error is
    status OK in both; an error is internal-error in one and bad-request in
    the other; neither record nor error is "failed to persist refreshed
    auth" in one and status OK in the other. *)
Theorem revisions_compared (m : M) now body auth exec refreshed :
  Flat.reachesRefresh m body auth exec →
  Refresh exec (Clone auth) = (refreshed, None) →
  ID (default (Clone auth) refreshed) = ID auth →
  coreauth.Provider (default (Clone auth) refreshed) = coreauth.Provider auth →
  let r := Flat.recordToPersist now auth refreshed in
  let flat := Flat.PostForceRefreshTokens (withManager m) now body in
  let listed := Listed.PostForceRefreshTokens (withManager m) now body in
  let refreshedResult :=
    {| Listed.ID := ID auth; Listed.Provider := coreauth.Provider auth;
       Listed.Refreshed := true; Listed.Error := ""; Listed.Auth := Some r |} in
  Listed.recordToUpdate now auth refreshed = r ∧
  (∀ m' persisted,
     Update m r = (m', (Some persisted, None)) →
     flat = (withManager m',
             (StatusOK,
              {| Flat.AuthID := ID persisted;
                 Flat.Provider := coreauth.Provider persisted;
                 Flat.Refreshed := true; Flat.Error := "";
                 Flat.Auth := Some persisted |})) ∧
     listed = (withManager m', (StatusOK, Listed.Results [refreshedResult]))) ∧
  (∀ m' p errUpdate,
     Update m r = (m', (p, Some errUpdate)) →
     flat = (withManager m',
             (StatusInternalServerError,
              Flat.failure (ID auth) (coreauth.Provider auth) errUpdate)) ∧
     listed = (withManager m',
               (StatusBadRequest,
                Listed.Results
                  [Listed.failure (ID auth) (coreauth.Provider auth) errUpdate]))) ∧
  (∀ m',
     Update m r = (m', (None, None)) →
     flat = (withManager m',
             (StatusInternalServerError,
              Flat.failure (ID auth) (coreauth.Provider auth)
                "failed to persist refreshed auth")) ∧
     listed = (withManager m', (StatusOK, Listed.Results [refreshedResult]))).
Proof.
  intros Hreach Href Hid Hprov r flat listed refreshedResult.
  assert (Hrec : Listed.recordToUpdate now auth refreshed = r).
  { subst r. unfold Listed.recordToUpdate, Flat.recordToPersist.
    by rewrite (returnedRecord_same _ _ Hid Hprov). }
  assert (Hflat : flat =
    match Update m r with
    | (m', (_, Some errUpdate)) =>
        (withManager m',
         (StatusInternalServerError,
          Flat.failure (ID auth) (coreauth.Provider auth) errUpdate))
    | (m', (None, None)) =>
        (withManager m',
         (StatusInternalServerError,
          Flat.failure (ID auth) (coreauth.Provider auth)
            "failed to persist refreshed auth"))
    | (m', (Some persisted, None)) =>
        (withManager m',
         (StatusOK,
          {| Flat.AuthID := ID persisted;
             Flat.Provider := coreauth.Provider persisted;
             Flat.Refreshed := true; Flat.Error := "";
             Flat.Auth := Some persisted |}))
    end).
  { subst flat.
    rewrite (PostForceRefreshTokens_afterRefresh _ _ _ _ _ _ Hreach Href).
    unfold Flat.afterRefresh. cbv zeta.
    rewrite (returnedRecord_same _ _ Hid Hprov), Hid, Hprov.
    rewrite decide_False by (by intros ?).
    by rewrite EqualFold_refl. }
  assert (Hlisted : listed =
    match Update m r with
    | (m', (_, Some errUpdate)) =>
        (withManager m',
         (StatusBadRequest,
          Listed.Results
            [Listed.failure (ID auth) (coreauth.Provider auth) errUpdate]))
    | (m', (_, None)) =>
        (withManager m', (StatusOK, Listed.Results [refreshedResult]))
    end).
  { subst listed refreshedResult.
    rewrite (Listed_afterRefresh _ _ _ _ _ _ Hreach Href). by rewrite Hrec. }
  split; [done|]. rewrite Hflat, Hlisted.
  repeat split; intros; by repeat case_match; simplify_eq.
Qed.

(** X15.  The refreshing stub of the tests is always let through: the
    record it returns keeps the stored identifier and provider, so the
    handler hands [Update] a record whose Metadata has "refreshed" set to
    true, "refreshed_at" set to the stamp and every other key as stored, and
    answers status OK when [Update] returns it. *)
Theorem refreshOnly_let_through (m : M) now body auth provider stamp :
  Flat.reachesRefresh m body auth (refreshOnlyExecutor provider stamp) →
  let r := Flat.recordToPersist now auth
             (Refresh (refreshOnlyExecutor provider stamp) (Clone auth)).1 in
  ID r = ID auth ∧
  coreauth.Provider r = coreauth.Provider auth ∧
  Metadata r !! "refreshed" = Some (MBool true) ∧
  Metadata r !! "refreshed_at" = Some (MString stamp) ∧
  (∀ k, k ≠ "refreshed" → k ≠ "refreshed_at" →
        Metadata r !! k = Metadata auth !! k) ∧
  (∀ m' persisted,
     Update m r = (m', (Some persisted, None)) →
     Flat.PostForceRefreshTokens (withManager m) now body
       = (withManager m',
          (StatusOK,
           {| Flat.AuthID := ID persisted;
              Flat.Provider := coreauth.Provider persisted;
              Flat.Refreshed := true; Flat.Error := "";
              Flat.Auth := Some persisted |}))).
Proof.
  intros Hreach r.
  set (returned := setMetadata
         (<["refreshed_at" := MString stamp]>
            (<["refreshed" := MBool true]> (Metadata auth))) auth).
  assert (Href : Refresh (refreshOnlyExecutor provider stamp) (Clone auth)
                 = (Some returned, None)) by reflexivity.
  assert (Hret : Flat.returnedRecord auth (Some returned) = returned)
    by (by apply returnedRecord_same).
  assert (Hmeta : Metadata r = Metadata returned).
  { subst r. rewrite Href. cbn [fst]. unfold Flat.recordToPersist. cbv zeta.
    rewrite Hret. simpl. by destruct (Runtime auth). }
  assert (Hid : ID r = ID auth).
  { subst r. rewrite Href. cbn [fst]. unfold Flat.recordToPersist. cbv zeta.
    rewrite Hret. simpl. by destruct (Runtime auth). }
  assert (Hprov : coreauth.Provider r = coreauth.Provider auth).
  { subst r. rewrite Href. cbn [fst]. unfold Flat.recordToPersist. cbv zeta.
    rewrite Hret. simpl. by destruct (Runtime auth). }
  repeat match goal with |- _ ∧ _ => split end; try done.
  - rewrite Hmeta. simpl. rewrite lookup_insert_ne by done.
    apply lookup_insert_eq.
  - rewrite Hmeta. simpl. apply lookup_insert_eq.
  - intros k Hk1 Hk2. rewrite Hmeta. simpl.
    by rewrite !lookup_insert_ne.
  - intros m' persisted Hupd.
    rewrite (PostForceRefreshTokens_afterRefresh _ _ _ _ _ _ Hreach Href).
    unfold Flat.afterRefresh. cbv zeta. rewrite Hret. simpl.
    rewrite decide_False by (by intros ?).
    rewrite EqualFold_refl. simpl.
    subst r. rewrite Href in Hupd. simpl in Hupd. by rewrite Hupd.
Qed.

(** X16.  The stub that overrides the identifier, met by the two
    revisions.  With an override that is neither empty nor the stored
    identifier, the revision with the contract check answers internal-error
    and leaves the manager alone; the earlier revision asks the manager to
    update a record under the foreign identifier, and when that goes
    through reports success for the stored identifier with a payload that
    carries the foreign one. *)
Theorem identifier_override_met (m : M) now body auth provider
    overrideID overrideProvider :
  Flat.reachesRefresh m body auth
    (mismatchedRefreshExecutor provider overrideID overrideProvider) →
  overrideID ≠ "" → overrideID ≠ ID auth →
  let exec := mismatchedRefreshExecutor provider overrideID overrideProvider in
  let r := Listed.recordToUpdate now auth (Refresh exec (Clone auth)).1 in
  Flat.PostForceRefreshTokens (withManager m) now body
    = (withManager m,
       (StatusInternalServerError,
        Flat.failure (ID auth) (coreauth.Provider auth)
          "executor returned mismatched auth id")) ∧
  ID r = overrideID ∧
  (∀ m' p,
     Update m r = (m', (p, None)) →
     Listed.PostForceRefreshTokens (withManager m) now body
       = (withManager m',
          (StatusOK,
           Listed.Results
             [ {| Listed.ID := ID auth;
                  Listed.Provider := coreauth.Provider auth;
                  Listed.Refreshed := true; Listed.Error := "";
                  Listed.Auth := Some r |} ]))).
Proof.
  intros Hreach Hne Hforeign exec r.
  assert (Hstub : ∃ returned, Refresh exec (Clone auth) = (Some returned, None) ∧
                              ID returned = overrideID).
  { subst exec. unfold mismatchedRefreshExecutor. simpl.
    rewrite (decide_False (P := overrideID = "")) by done.
    eexists. split; [reflexivity|]. by case_decide. }
  destruct Hstub as (returned & Href & Hid). subst r. rewrite Href. cbn [fst].
  set (r := Listed.recordToUpdate now auth (Some returned)).
  repeat match goal with |- _ ∧ _ => split end.
  - rewrite (PostForceRefreshTokens_afterRefresh _ _ _ _ _ _ Hreach Href).
    unfold Flat.afterRefresh. cbv zeta.
    rewrite decide_True; [done|].
    unfold Flat.returnedRecord. simpl.
    rewrite (decide_False (P := ID returned = "")) by (by rewrite Hid).
    case_decide; simpl; by rewrite Hid.
  - subst r. unfold Listed.recordToUpdate. simpl. by destruct (Runtime returned).
  - intros m' p Hupd.
    rewrite (Listed_afterRefresh _ _ _ _ _ _ Hreach Href).
    subst r. simpl in Hupd. by rewrite Hupd.
Qed.

End generic.

#[local] Existing Instance ascii_strings.

(** *** On the registry, with the executors of the tests *)
Import Registry.

Lemma blank_identifier_rejected_witness :
  Flat.PostForceRefreshTokens (withManager (managerWith (Some refreshOnly)))
      someTime (BodyJSON {| req_AuthID := "  "; req_Provider := " Codex " |})
    = (withManager (managerWith (Some refreshOnly)),
       (StatusBadRequest, Flat.failure "" "codex" "auth_id is required")) ∧
  Listed.PostForceRefreshTokens (withManager (managerWith (Some refreshOnly)))
      someTime BodyEOF
    = (withManager (managerWith (Some refreshOnly)),
       (StatusBadRequest, Listed.ErrorOnly "auth_id is required")).
Proof.
  split.
  - destruct (blank_identifier_rejected (managerWith (Some refreshOnly)) someTime
                (BodyJSON {| req_AuthID := "  "; req_Provider := " Codex " |}))
      as [Hflat _].
    + right. eexists. split; reflexivity.
    + exact Hflat.
  - destruct (blank_identifier_rejected (managerWith (Some refreshOnly)) someTime
                BodyEOF) as [_ Hlisted].
    + by left.
    + exact Hlisted.
Defined.

Lemma client_errors_leave_manager_witness :
  (Flat.PostForceRefreshTokens (withManager (managerWith (Some refreshFailure)))
     someTime forceCodex).1
  = withManager (managerWith (Some refreshFailure)).
Proof.
  apply (client_errors_leave_manager (managerWith (Some refreshFailure))
           someTime forceCodex).
  left. vm_compute. reflexivity.
Defined.

Lemma revisions_compared_witness :
  (* the executor returns nothing and the registry takes the update: both
     revisions answer status OK with the same record *)
  ∃ m' persisted,
    Flat.PostForceRefreshTokens (withManager (managerWith (Some nilRefresh)))
        someTime forceCodex
      = (withManager m',
         (StatusOK,
          {| Flat.AuthID := ID persisted;
             Flat.Provider := coreauth.Provider persisted;
             Flat.Refreshed := true; Flat.Error := "";
             Flat.Auth := Some persisted |})) ∧
    Listed.PostForceRefreshTokens (withManager (managerWith (Some nilRefresh)))
        someTime forceCodex
      = (withManager m',
         (StatusOK,
          Listed.Results
            [ {| Listed.ID := "codex-auth"; Listed.Provider := "codex";
                 Listed.Refreshed := true; Listed.Error := "";
                 Listed.Auth := Some persisted |} ])).
Proof.
  pose (r := Flat.recordToPersist someTime baseAuth None).
  exists (update (managerWith (Some nilRefresh)) r).1, r.
  destruct (revisions_compared (managerWith (Some nilRefresh)) someTime
              forceCodex baseAuth nilRefresh None
              (reachesRefresh_codex nilRefresh eq_refl) eq_refl eq_refl eq_refl)
    as (_ & Hok & _).
  apply (Hok (update (managerWith (Some nilRefresh)) r).1 r).
  vm_compute. reflexivity.
Defined.

Lemma refreshOnly_let_through_witness :
  ∃ m' persisted,
    Flat.PostForceRefreshTokens (withManager (managerWith (Some refreshOnly)))
        someTime forceCodex
      = (withManager m',
         (StatusOK,
          {| Flat.AuthID := "codex-auth"; Flat.Provider := "codex";
             Flat.Refreshed := true; Flat.Error := "";
             Flat.Auth := Some persisted |})) ∧
    Metadata persisted !! "refreshed" = Some (MBool true) ∧
    Metadata persisted !! "access_token" = Some (MString "old").
Proof.
  pose (r := Flat.recordToPersist someTime baseAuth
               (Refresh refreshOnly (Clone baseAuth)).1).
  exists (update (managerWith (Some refreshOnly)) r).1, r.
  destruct (refreshOnly_let_through (managerWith (Some refreshOnly)) someTime
              forceCodex baseAuth "codex" "2025-10-31T00:00:00Z"
              (reachesRefresh_codex refreshOnly eq_refl))
    as (_ & _ & Hflag & _ & Hkeep & Hok).
  split; [|split].
  - apply (Hok (update (managerWith (Some refreshOnly)) r).1 r).
    vm_compute. reflexivity.
  - exact Hflag.
  - etrans; [apply (Hkeep "access_token"); discriminate|].
    apply lookup_singleton_eq.
Defined.

Lemma identifier_override_met_witness :
  Flat.PostForceRefreshTokens (withManager (managerWith (Some idMismatch)))
      someTime forceCodex
    = (withManager (managerWith (Some idMismatch)),
       (StatusInternalServerError,
        Flat.failure "codex-auth" "codex" "executor returned mismatched auth id"))
  ∧
  (* the earlier revision, on a manager that holds the foreign identifier *)
  (let m := managerOf [baseAuth; otherAuth] (Some idMismatch) in
   let r := Listed.recordToUpdate someTime baseAuth
              (Some (setID "other-id" baseAuth)) in
   ID r = "other-id" ∧
   Listed.PostForceRefreshTokens (withManager m) someTime forceCodex
     = (withManager (update m r).1,
        (StatusOK,
         Listed.Results
           [ {| Listed.ID := "codex-auth"; Listed.Provider := "codex";
                Listed.Refreshed := true; Listed.Error := "";
                Listed.Auth := Some r |} ]))).
Proof.
  split.
  - apply (identifier_override_met (managerWith (Some idMismatch)) someTime
             forceCodex baseAuth "codex" "other-id" ""
             (reachesRefresh_codex idMismatch eq_refl)).
    + discriminate.
    + discriminate.
  - intros m r.
    destruct (identifier_override_met m someTime forceCodex baseAuth
                "codex" "other-id" "") as (_ & Hid & Hlisted).
    + apply (reachesRefresh_first baseAuth [otherAuth] idMismatch); reflexivity.
    + discriminate.
    + discriminate.
    + split; [exact Hid|].
      apply (Hlisted (update m r).1 (Some r)). vm_compute. reflexivity.
Defined.

End HandlerExtras.

(** ** The counting executor *)
Module RefreshLimiterFacts.
Import RefreshLimiter.
Local Open Scope Z_scope.

Lemma inFlight_take_S e es k :
  inFlight (take (S k) (e :: es))
    = inFlight (take k es) + match e with Entered => 1 | Left => -1 end.
Proof. simpl. destruct e; lia. Qed.

Lemma observeAll_spec es r :
  let r' := observeAll r es in
  current r' = current r + inFlight es ∧
  max r ≤ max r' ∧
  (∀ k, current r ≤ max r →
        current r + inFlight (take k es) ≤ max r') ∧
  (max r' = max r ∨
   ∃ k, (k ≤ length es)%nat ∧ max r' = current r + inFlight (take k es)).
Proof.
  revert r. induction es as [|e es IH]; intros r; simpl.
  - repeat split; [lia|lia| |by left].
    intros k Hle. rewrite take_nil. simpl. lia.
  - specialize (IH (observe r e)). cbv zeta in IH.
    destruct IH as (Hcur & Hmax & Hall & Hsome).
    unfold observeAll in *. simpl.
    set (r' := fold_left observe es (observe r e)) in *.
    assert (Hstep : current (observe r e)
                    = current r + match e with Entered => 1 | Left => -1 end
                    ∧ max r ≤ max (observe r e)
                    ∧ (current r ≤ max r →
                       current (observe r e) ≤ max (observe r e))
                    ∧ (max (observe r e) = max r ∨
                       max (observe r e) = current (observe r e))).
    { destruct e; simpl; unfold enter, leave; simpl.
      - destruct (max r <? current r + 1) eqn:Hlt;
          [apply Z.ltb_lt in Hlt|apply Z.ltb_ge in Hlt]; lia.
      - lia. }
    destruct Hstep as (Hc & Hm & Hinv & Hnew).
    repeat split.
    + rewrite Hcur, Hc. destruct e; lia.
    + lia.
    + intros [|k] Hle.
      * simpl. lia.
      * rewrite inFlight_take_S. specialize (Hall k (Hinv Hle)). lia.
    + destruct Hsome as [Hsame|(k & Hk & Hpeak)].
      * destruct Hnew as [Hnew|Hnew].
        -- left. lia.
        -- right. exists 1%nat. split; [simpl; lia|].
           rewrite inFlight_take_S, take_0. simpl. lia.
      * right. exists (S k). split; [simpl; lia|].
        rewrite inFlight_take_S. lia.
Qed.

(** X17.  What [MaxConcurrent] reports after any sequence of entries into
    and exits from [Refresh] is the peak of the number of calls in flight:
    no prefix of the sequence has more calls in flight, and some prefix has
    exactly that many; and [current] is the number in flight at the end. *)
Theorem MaxConcurrent_is_peak (es : list Event) :
  let r := observeAll fresh es in
  current r = inFlight es ∧
  (∀ k, inFlight (take k es) ≤ MaxConcurrent r) ∧
  (∃ k, (k ≤ length es)%nat ∧ inFlight (take k es) = MaxConcurrent r).
Proof.
  intros r. destruct (observeAll_spec es fresh) as (Hcur & Hmax & Hall & Hsome).
  fold r in Hcur, Hmax, Hall, Hsome. simpl in *. unfold MaxConcurrent.
  repeat split.
  - lia.
  - intros k. specialize (Hall k). lia.
  - destruct Hsome as [Hsame|(k & Hk & Hpeak)].
    + exists 0%nat. split; [lia|]. rewrite take_0. simpl. lia.
    + exists k. split; [done|]. lia.
Qed.

End RefreshLimiterFacts.

(** ** The end-to-end test *)
Module E2EFacts.
Import GoStrings GoTime Identity IdentityFacts IdentityInjective UserIDCache
       CacheFacts CacheExtras e2e Samples.
Local Open Scope nat_scope.

Lemma HasPrefix_app (p r : string) : HasPrefix (p +:+ r) p = true.
Proof.
  induction p as [|c p IH]; [done|].
  rewrite string_app_cons. simpl. by rewrite bool_decide_eq_true_2.
Qed.

Lemma Contains_prefix (s sub : string) :
  HasPrefix s sub = true → Contains s sub = true.
Proof. intros H. destruct s; simpl in *; by rewrite H. Qed.

Lemma Contains_app (a s sub : string) :
  Contains s sub = true → Contains (a +:+ s) sub = true.
Proof.
  intros H. induction a as [|c a IH]; [done|].
  rewrite string_app_cons. simpl. rewrite IH. apply orb_true_r.
Qed.

Lemma formatCheck_Conforming s : Conforming s → formatCheck s = true.
Proof.
  intros (digest & u1 & u2 & u3 & u4 & u5 & _ & _ & _ & _ & _ & _ & ->).
  unfold formatCheck. apply andb_true_iff. split; [apply HasPrefix_app|].
  apply (Contains_app "user_"), Contains_app, Contains_prefix, HasPrefix_app.
Qed.

(** X18.  The format check of the end-to-end test accepts every string that
    matches the pattern the test prints, so every identity the validator
    accepts and every identity the generator produces; it is weaker than
    the pattern, and accepts strings the validator rejects. *)
Theorem formatCheck_weaker_than_pattern :
  (∀ s, Conforming s → formatCheck s = true) ∧
  (∀ s, isValidUserID s = true → formatCheck s = true) ∧
  (∀ rnd, formatCheck (generateFakeUserID rnd) = true) ∧
  (∃ s, formatCheck s = true ∧ isValidUserID s = false ∧ ¬ Conforming s).
Proof.
  split; [apply formatCheck_Conforming|].
  split; [intros s Hs; by apply formatCheck_Conforming, isValidUserID_Conforming|].
  split; [intros rnd; apply formatCheck_Conforming, generateFakeUserID_Conforming|].
  exists "user__account__session_". repeat split; try reflexivity.
  intros Hc. by apply isValidUserID_Conforming in Hc.
Qed.

Lemma formatCheck_weaker_than_pattern_witness :
  formatCheck (generateFakeUserID countTape) = true.
Proof.
  apply (proj1 (proj2 formatCheck_weaker_than_pattern)).
  apply generateFakeUserID_valid.
Defined.

(** X19.  The verdict of the test depends on the revision of the cache.
    Two lookups by the same API key, the second no later than one TTL
    after the first, give two identities the verdict passes.  Two lookups
    by provider and model, for two models of one provider and on an empty
    cache, give identities minted from two draws of the random source; when
    the draws differ the verdict fails with "Expected same user_id across
    models". *)
Theorem verdict_depends_on_revision :
  (∀ st apiKey t0 r0 t1 r1,
     apiKey ≠ "" → (t1 ≤ Add t0 userIDTTL)%Z →
     let first := ByAPIKey.cachedUserID st t0 r0 apiKey in
     let second := ByAPIKey.cachedUserID first.1 t1 r1 apiKey in
     verifyCaptured [first.2; second.2]
       = {| pass := true; message := SameUserIDUsed first.2 |}) ∧
  (∀ provider model1 model2 t0 r0 t1 r1 i,
     provider ≠ "" → model1 ≠ "" → model2 ≠ "" →
     ByProviderModel.cacheKey provider model1
       ≠ ByProviderModel.cacheKey provider model2 →
     i < 48 → (r0 i mod 256 ≠ r1 i mod 256)%N →
     let first :=
       ByProviderModel.cachedUserID UserIDCache.empty t0 r0 provider model1 in
     let second :=
       ByProviderModel.cachedUserID first.1 t1 r1 provider model2 in
     verifyCaptured [first.2; second.2]
       = {| pass := false;
            message := ExpectedSameUserID (generateFakeUserID r0)
                                          (generateFakeUserID r1) |}).
Proof.
  split.
  - intros st apiKey t0 r0 t1 r1 Hkey Hgap first second.
    pose proof (lookup_returns_valid_key st t0 r0 apiKey) as Hv. fold first in Hv.
    assert (Hsecond : second.2 = first.2).
    { subst second. unfold ByAPIKey.cachedUserID at 1.
      rewrite decide_False by done. cbv zeta. simpl.
      assert (Hget : userIDCache first.1 !! apiKey
                     = Some {| value := first.2; expire := Add t0 userIDTTL |}).
      { subst first. unfold ByAPIKey.cachedUserID.
        rewrite decide_False by done. simpl. apply lookup_insert_eq. }
      rewrite Hget. simpl. rewrite Hv. unfold Before.
      rewrite (proj2 (Z.ltb_ge _ _) Hgap).
      by rewrite (bool_decide_eq_false_2 _ (valid_nonempty _ Hv)). }
    rewrite Hsecond. unfold verifyCaptured.
    rewrite (bool_decide_eq_false_2 _ (valid_nonempty _ Hv)). simpl.
    rewrite bool_decide_eq_true_2 by done. simpl.
    rewrite formatCheck_Conforming by (by apply isValidUserID_Conforming). done.
  - intros provider model1 model2 t0 r0 t1 r1 i Hp Hm1 Hm2 Hkeys Hi Hdraw
           first second.
    assert (Hfirst : first
                     = ({| userIDCache :=
                             <[ByProviderModel.cacheKey provider model1 :=
                                 {| value := generateFakeUserID r0;
                                    expire := Add t0 userIDTTL |}]> ∅;
                           cleanupStarted := true |}, generateFakeUserID r0)).
    { subst first. apply (cachedUserID_miss provider model1 Hp Hm1).
      intros e He. done. }
    assert (Hsecond : second.2 = generateFakeUserID r1).
    { subst second. rewrite Hfirst. simpl.
      rewrite (cachedUserID_miss provider model2 Hp Hm2); [done|].
      intros e He. simpl in He. rewrite lookup_insert_ne in He by done. done. }
    rewrite Hsecond, Hfirst. simpl. unfold verifyCaptured.
    rewrite bool_decide_eq_false_2; [done|].
    by apply (generateFakeUserID_fresh r0 r1 i).
Qed.

Lemma verdict_depends_on_revision_witness :
  (* the two requests of the test, half a second apart *)
  (let first := ByAPIKey.cachedUserID UserIDCache.empty 0%Z zeroTape
                  "test-key-123" in
   let second := ByAPIKey.cachedUserID first.1 500000000%Z countTape
                   "test-key-123" in
   pass (verifyCaptured [first.2; second.2]) = true) ∧
  (let first := ByProviderModel.cachedUserID UserIDCache.empty 0%Z zeroTape
                  "claude" "claude-3-5-sonnet" in
   let second := ByProviderModel.cachedUserID first.1 500000000%Z countTape
                   "claude" "claude-3-5-haiku" in
   pass (verifyCaptured [first.2; second.2]) = false).
Proof.
  destruct verdict_depends_on_revision as [Hkey Hpair]. split.
  - cbv zeta.
    rewrite (Hkey UserIDCache.empty "test-key-123" 0%Z zeroTape 500000000%Z
               countTape); [reflexivity|discriminate|vm_compute; discriminate].
  - cbv zeta.
    rewrite (Hpair "claude" "claude-3-5-sonnet" "claude-3-5-haiku" 0%Z zeroTape
               500000000%Z countTape 1);
      [reflexivity|discriminate|discriminate|discriminate
      |vm_compute; discriminate|lia|vm_compute; discriminate].
Defined.

(** X20.  The port the test picks for the proxy is a valid, unprivileged
    TCP port whatever the clock says, and lies in 18317..19316 for a clock
    at or after the epoch. *)
Theorem proxyPort_range (unix : Z) :
  (1024 ≤ proxyPort unix < 65536)%Z ∧
  ((0 ≤ unix)%Z → (18317 ≤ proxyPort unix ≤ 19316)%Z).
Proof.
  unfold proxyPort.
  pose proof (Z.rem_bound_abs unix 1000 ltac:(lia)) as Habs.
  split; [lia|]. intros Hpos.
  pose proof (Z.rem_bound_pos unix 1000 Hpos ltac:(lia)). lia.
Qed.

Lemma proxyPort_range_witness :
  (18317 ≤ proxyPort 1761868800 ≤ 19316)%Z.
Proof. apply (proxyPort_range 1761868800). lia. Defined.

Lemma suffix_cons_cases (d dir : list string) c :
  d `suffix_of` c :: dir → d = c :: dir ∨ d `suffix_of` dir.
Proof.
  intros [[|x k] Hk]; simpl in Hk.
  - by left.
  - injection Hk as _ ->. right. by exists k.
Qed.

Lemma climb_found hasGoMod dir root :
  climb hasGoMod dir = inr root →
  root `suffix_of` dir ∧ hasGoMod root = true ∧
  ∀ d, d `suffix_of` dir → hasGoMod d = true → d `suffix_of` root.
Proof.
  induction dir as [|c dir IH]; simpl.
  - destruct (hasGoMod []) eqn:Hroot; [|done]. intros [= <-].
    repeat split; [done..|]. intros d Hd _. by apply suffix_nil_inv in Hd as ->.
  - destruct (hasGoMod (c :: dir)) eqn:Hhere.
    + intros [= <-]. by repeat split.
    + intros Hfind. destruct (IH Hfind) as (Hsuf & Hmod & Hdeepest).
      repeat split; [by apply suffix_cons_r|done|].
      intros d Hd Hdmod. apply suffix_cons_cases in Hd as [->|Hd].
      * congruence.
      * by apply Hdeepest.
Qed.

Lemma climb_error hasGoMod dir err :
  climb hasGoMod dir = inl err ↔
  err = goModNotFound ∧ ∀ d, d `suffix_of` dir → hasGoMod d = false.
Proof.
  induction dir as [|c dir IH]; simpl.
  - destruct (hasGoMod []) eqn:Hroot; split; try done.
    + intros [_ Hall]. specialize (Hall [] ltac:(done)). congruence.
    + intros [= <-]. split; [done|].
      intros d Hd. by apply suffix_nil_inv in Hd as ->.
    + by intros [-> _].
  - destruct (hasGoMod (c :: dir)) eqn:Hhere; split; try done.
    + intros [_ Hall]. specialize (Hall (c :: dir) ltac:(done)). congruence.
    + intros [-> Hnone]%IH. split; [done|].
      intros d Hd. apply suffix_cons_cases in Hd as [->|Hd]; [done|].
      by apply Hnone.
    + intros [-> Hall]. apply IH. split; [done|].
      intros d Hd. apply Hall. by apply suffix_cons_r.
Qed.

(** X21.  [findRepoRoot] passes on the error of [os.Getwd] as it is.  With
    a working directory, it answers the nearest directory, from the working
    directory upwards, that holds a go.mod: the answer is the working
    directory or one of its ancestors, holds a go.mod, and lies below every
    other such directory; it fails, and then with "go.mod not found",
    exactly when neither the working directory nor any ancestor, the root
    included, holds one. *)
Theorem findRepoRoot_nearest (getwd : string + list string)
    (hasGoMod : list string → bool) :
  (∀ err, getwd = inl err → findRepoRoot getwd hasGoMod = inl err) ∧
  (∀ dir, getwd = inr dir →
     (∀ root, findRepoRoot getwd hasGoMod = inr root →
        root `suffix_of` dir ∧ hasGoMod root = true ∧
        ∀ d, d `suffix_of` dir → hasGoMod d = true → d `suffix_of` root) ∧
     (∀ err, findRepoRoot getwd hasGoMod = inl err ↔
        err = goModNotFound ∧ ∀ d, d `suffix_of` dir → hasGoMod d = false)).
Proof.
  split.
  - by intros err ->.
  - intros dir ->. simpl. split.
    + intros root. apply climb_found.
    + intros err. apply climb_error.
Qed.

Lemma findRepoRoot_nearest_witness :
  (* run from <repo>/test, with go.mod in <repo> only *)
  let hasGoMod := λ d : list string, bool_decide (d = ["repo"; "home"]) in
  findRepoRoot (inr ["test"; "repo"; "home"]) hasGoMod = inr ["repo"; "home"] ∧
  ["repo"; "home"] `suffix_of` ["test"; "repo"; "home"] ∧
  (* the working directory is gone *)
  findRepoRoot (inl "getwd: no such file or directory") hasGoMod
    = inl "getwd: no such file or directory".
Proof.
  intros hasGoMod. split; [reflexivity|]. split.
  - destruct (findRepoRoot_nearest (inr ["test"; "repo"; "home"]) hasGoMod)
      as [_ Hdir].
    destruct (Hdir ["test"; "repo"; "home"] eq_refl) as [Hfound _].
    apply (Hfound ["repo"; "home"] eq_refl).
  - destruct (findRepoRoot_nearest (inl "getwd: no such file or directory")
                hasGoMod) as [Herr _].
    apply (Herr _ eq_refl).
Defined.

Lemma waitLoop_spec output i fuel :
  match waitLoop output i fuel with
  | ServerReady polls =>
      i < polls ≤ i + fuel ∧ readyMarker (output (polls - 1)) = true ∧
      ∀ j, i ≤ j < polls - 1 →
           readyMarker (output j) = false ∧ errorMarker (output j) = false
  | ServerFailed out =>
      ∃ j, i ≤ j < i + fuel ∧ out = output j ∧
           readyMarker (output j) = false ∧ errorMarker (output j) = true ∧
           ∀ j', i ≤ j' < j →
                 readyMarker (output j') = false ∧ errorMarker (output j') = false
  | ServerTimeout out =>
      out = output (i + fuel) ∧
      ∀ j, i ≤ j < i + fuel →
           readyMarker (output j) = false ∧ errorMarker (output j) = false
  end.
Proof.
  revert i. induction fuel as [|fuel IH]; intros i; simpl.
  - split; [by rewrite Nat.add_0_r|]. intros j Hj. lia.
  - destruct (readyMarker (output i)) eqn:Hready.
    + replace (S i - 1) with i by lia.
      split_and!; [lia|lia|done|]. intros j Hj. lia.
    + destruct (errorMarker (output i)) eqn:Herr.
      * exists i. split_and!; [lia|lia|done|done|done|]. intros j' Hj'. lia.
      * specialize (IH (S i)).
        destruct (waitLoop output (S i) fuel) as [polls|out|out].
        -- destruct IH as (Hpolls & Hlast & Hbefore).
           split_and!; [lia|lia|done|]. intros j Hj.
           destruct (decide (j = i)) as [->|]; [done|]. apply Hbefore. lia.
        -- destruct IH as (j & Hj & -> & Hr & He & Hbefore).
           exists j. split_and!; [lia|lia|done|done|done|]. intros j' Hj'.
           destruct (decide (j' = i)) as [->|]; [done|]. apply Hbefore. lia.
        -- destruct IH as (-> & Hbefore).
           split; [f_equal; lia|]. intros j Hj.
           destruct (decide (j = i)) as [->|]; [done|]. apply Hbefore. lia.
Qed.

(** X22.  The wait for the proxy polls its output at most a hundred times.
    It reports ready at the first poll whose output shows a start-up
    marker, a marker of the same poll for an error notwithstanding; it
    reports failure at the first poll that shows an error marker and no
    start-up marker; it times out, with the output as it then is, when a
    hundred polls showed neither. *)
Theorem waitForServer_polls (output : nat → string) :
  match waitForServer output with
  | ServerReady polls =>
      1 ≤ polls ≤ 100 ∧ readyMarker (output (polls - 1)) = true ∧
      ∀ j, j < polls - 1 →
           readyMarker (output j) = false ∧ errorMarker (output j) = false
  | ServerFailed out =>
      ∃ j, j < 100 ∧ out = output j ∧
           readyMarker (output j) = false ∧ errorMarker (output j) = true ∧
           ∀ j', j' < j →
                 readyMarker (output j') = false ∧ errorMarker (output j') = false
  | ServerTimeout out =>
      out = output 100 ∧
      ∀ j, j < 100 →
           readyMarker (output j) = false ∧ errorMarker (output j) = false
  end.
Proof.
  unfold waitForServer.
  pose proof (waitLoop_spec output 0 (maxWait * 10)) as Hspec.
  change (maxWait * 10) with 100 in *.
  destruct (waitLoop output 0 100) as [polls|out|out].
  - destruct Hspec as (Hpolls & Hlast & Hbefore).
    split_and!; [lia|lia|done|]. intros j Hj. apply Hbefore. lia.
  - destruct Hspec as (j & Hj & -> & Hr & He & Hbefore).
    exists j. split_and!; [lia|done|done|done|]. intros j' Hj'.
    apply Hbefore. lia.
  - destruct Hspec as (-> & Hbefore). split; [done|].
    intros j Hj. apply Hbefore. lia.
Qed.

Lemma waitForServer_polls_witness :
  (* the marker shows at the fourth poll, together with an error marker *)
  let output := λ i : nat,
    if (i <? 3)%nat then "starting"
    else "FATAL? no: API server started successfully on: 127.0.0.1" in
  waitForServer output = ServerReady 4 ∧
  ∀ j, j < 3 → readyMarker (output j) = false ∧ errorMarker (output j) = false.
Proof.
  intros output.
  assert (Hrun : waitForServer output = ServerReady 4) by (vm_compute; reflexivity).
  pose proof (waitForServer_polls output) as Hspec. rewrite Hrun in Hspec.
  split; [done|]. apply Hspec.
Defined.

End E2EFacts.
